(** * Action distributions of torchy_baselines/common/distributions.py

    A shallow embedding of the policy-head distributions
    ([Distribution], [DiagGaussianDistribution],
    [SquashedDiagGaussianDistribution], [CategoricalDistribution]) and of
    the factory [make_proba_distribution].

    Conventions of the embedding:
    - tensor entries are real numbers ([R]): the arithmetic of the source is
      read in exact real arithmetic, rounding and saturation are not modelled;
    - tensors have rank 0, 1 or 2 (scalar, vector, batch x dimension), the
      shapes a policy head exchanges, with PyTorch's broadcasting between them;
    - Python exceptions are values of [exn], a method returns a [result];
    - a method that assigns an attribute of [self] returns the updated
      instance next to its value;
    - the random draws of one call, and the initial weights of a layer, are
      arguments of that call. *)

From Stdlib Require Import String ZArith Reals Lra Lia List Bool Arith.
Import ListNotations.

Local Open Scope R_scope.

(** ** Exceptions and results *)

Inductive exn : Type :=
| NotImplementedError (msg : string)
| AssertionError (msg : string)
| AttributeError
| IndexError
| RuntimeError
| TypeError
| ValueError.

Inductive result (A : Type) : Type :=
| Ok (a : A)
| Raise (e : exn).

Arguments Ok {A} a.
Arguments Raise {A} e.

Definition bind {A B : Type} (c : result A) (k : A -> result B) : result B :=
  match c with
  | Ok a => k a
  | Raise e => Raise e
  end.

Notation "'let*' x ':=' c 'in' k" := (bind c (fun x => k))
  (at level 10, x pattern, c at level 100, k at level 200).

Definition raises {A : Type} (c : result A) : Prop :=
  exists e, c = Raise e.

(** Argument validation of [torch.distributions]: what the computation
    could not take is refused beforehand, with [ValueError]. *)
Definition refused {A : Type} (c : result A) : result A :=
  match c with
  | Ok a => Ok a
  | Raise _ => Raise ValueError
  end.

Fixpoint mapM {A B : Type} (f : A -> result B) (l : list A) : result (list B) :=
  match l with
  | [] => Ok []
  | x :: t =>
      let* y := f x in
      let* ys := mapM f t in
      Ok (y :: ys)
  end.

Fixpoint map2 {A B C : Type} (f : A -> B -> C) (u : list A) (v : list B) : list C :=
  match u, v with
  | x :: u', y :: v' => f x y :: map2 f u' v'
  | _, _ => []
  end.

Fixpoint mapM2 {A B C : Type} (f : A -> B -> result C) (u : list A) (v : list B)
  : result (list C) :=
  match u, v with
  | x :: u', y :: v' =>
      let* z := f x y in
      let* zs := mapM2 f u' v' in
      Ok (z :: zs)
  | _, _ => Ok []
  end.

(** ** Tensors *)

Inductive tensor (A : Type) : Type :=
| T0 (x : A)
| T1 (v : list A)
| T2 (m : list (list A)).

Arguments T0 {A} x.
Arguments T1 {A} v.
Arguments T2 {A} m.

(** [len(t.shape)] *)
Definition rank {A : Type} (t : tensor A) : nat :=
  match t with
  | T0 _ => 0
  | T1 _ => 1
  | T2 _ => 2
  end.

(** [t.shape] *)
Definition shape {A : Type} (t : tensor A) : list nat :=
  match t with
  | T0 _ => []
  | T1 v => [length v]
  | T2 m => [length m; length (hd [] m)]
  end.

(** An elementwise operation, also one with a Python scalar. *)
Definition tmap {A B : Type} (f : A -> B) (t : tensor A) : tensor B :=
  match t with
  | T0 x => T0 (f x)
  | T1 v => T1 (map f v)
  | T2 m => T2 (map (map f) m)
  end.

(** *** Broadcasting

    Trailing dimensions are aligned; along a dimension the sizes are equal
    or one of them is 1, anything else is PyTorch's [RuntimeError]. *)

Definition bvec {A B C : Type} (f : A -> B -> C) (u : list A) (v : list B)
  : result (list C) :=
  if (length u =? length v)%nat then Ok (map2 f u v)
  else match u, v with
       | [x], _ => Ok (map (f x) v)
       | _, [y] => Ok (map (fun a => f a y) u)
       | _, _ => Raise RuntimeError
       end.

Definition bmat {A B C : Type} (f : A -> B -> C)
  (m : list (list A)) (n : list (list B)) : result (list (list C)) :=
  if (length m =? length n)%nat then mapM2 (bvec f) m n
  else match m, n with
       | [r], _ => mapM (bvec f r) n
       | _, [s] => mapM (fun r => bvec f r s) m
       | _, _ => Raise RuntimeError
       end.

Definition broadcast {A B C : Type} (f : A -> B -> C) (a : tensor A) (b : tensor B)
  : result (tensor C) :=
  match a, b with
  | T0 x, _ => Ok (tmap (f x) b)
  | _, T0 y => Ok (tmap (fun x => f x y) a)
  | T1 u, T1 v => let* w := bvec f u v in Ok (T1 w)
  | T1 u, T2 n => let* w := bmat f [u] n in Ok (T2 w)
  | T2 m, T1 v => let* w := bmat f m [v] in Ok (T2 w)
  | T2 m, T2 n => let* w := bmat f m n in Ok (T2 w)
  end.

(** [torch.broadcast_tensors(a, b)] *)
Definition broadcast_tensors {A B : Type} (a : tensor A) (b : tensor B)
  : result (tensor A * tensor B) :=
  let* a' := broadcast (fun x _ => x) a b in
  let* b' := broadcast (fun _ y => y) a b in
  Ok (a', b').

Definition tadd := broadcast Rplus.
Definition tsub := broadcast Rminus.
Definition tmul := broadcast Rmult.
Definition tdiv := broadcast Rdiv.

Definition shape_eqb (s1 s2 : list nat) : bool :=
  if list_eq_dec Nat.eq_dec s1 s2 then true else false.

(** [a -= b]: the result is written into [a], whose shape cannot grow. *)
Definition isub (a b : tensor R) : result (tensor R) :=
  let* r := tsub a b in
  if shape_eqb (shape r) (shape a) then Ok r else Raise RuntimeError.

(** *** Reductions *)

Definition Rsum (l : list R) : R := fold_right Rplus 0 l.

(** [t.sum()] *)
Definition sum_all (t : tensor R) : tensor R :=
  match t with
  | T0 x => T0 x
  | T1 v => T0 (Rsum v)
  | T2 m => T0 (Rsum (map Rsum m))
  end.

(** [t.sum(axis=1)], [th.sum(t, dim=1)] *)
Definition sum_dim1 (t : tensor R) : result (tensor R) :=
  match t with
  | T2 m => Ok (T1 (map Rsum m))
  | _ => Raise IndexError
  end.

(** [t.sum(-1)] on a tensor of rank at least one *)
Definition sum_last (t : tensor R) : result (tensor R) :=
  match t with
  | T0 _ => Raise IndexError
  | T1 v => Ok (T0 (Rsum v))
  | T2 m => Ok (T1 (map Rsum m))
  end.

(** Index of the first largest entry. *)
Fixpoint argmax (l : list R) : nat :=
  match l with
  | [] => 0
  | x :: t =>
      match t with
      | [] => 0
      | _ :: _ => let j := argmax t in
                  if Rlt_dec x (nth j t 0) then S j else 0%nat
      end
  end.

(** [th.argmax(t, dim=1)] *)
Definition argmax_dim1 (t : tensor R) : result (tensor nat) :=
  match t with
  | T2 m => if forallb (fun r => negb (length r =? 0)%nat) m
            then Ok (T1 (map argmax m))
            else Raise IndexError
  | _ => Raise IndexError
  end.

(** *** Elementwise functions *)

(** [numpy.arctanh] *)
Definition arctanh (x : R) : R := / 2 * ln ((1 + x) / (1 - x)).

Definition ttanh : tensor R -> tensor R := tmap tanh.
Definition tarctanh : tensor R -> tensor R := tmap arctanh.
Definition texp : tensor R -> tensor R := tmap exp.
Definition tlog : tensor R -> tensor R := tmap ln.
Definition tsquare : tensor R -> tensor R := tmap (fun x => x ^ 2).
Definition ones_like (t : tensor R) : tensor R := tmap (fun _ => 1) t.

(** The integer a float stands for; a float with a fractional part is
    not in the support of a categorical distribution. *)
Definition integer_of (x : R) : result Z :=
  if Req_dec_T (IZR (Int_part x)) x then Ok (Int_part x) else Raise ValueError.

(** The entries of a tensor, row after row. *)
Definition elements {A : Type} (t : tensor A) : list A :=
  match t with
  | T0 x => [x]
  | T1 v => v
  | T2 m => concat m
  end.

(** [bool(t)], as [if t:] takes it: defined for a single entry only. *)
Definition truthy (t : tensor R) : result bool :=
  match elements t with
  | [x] => Ok (if Req_dec_T x 0 then false else true)
  | _ => Raise RuntimeError
  end.

(** A tensor of outcomes succeeds when every entry does. *)
Definition tsequence {A : Type} (t : tensor (result A)) : result (tensor A) :=
  match t with
  | T0 r => let* x := r in Ok (T0 x)
  | T1 v => let* w := mapM (fun r => r) v in Ok (T1 w)
  | T2 m => let* w := mapM (mapM (fun r => r)) m in Ok (T2 w)
  end.

(** ** The distributions of [torch.distributions] the module builds on *)

Module Normal.

(** [Normal(loc, scale)]: both parameters are broadcast to one shape. *)
Record t : Type := mk { loc : tensor R; scale : tensor R }.

Definition init (loc scale : tensor R) : result t :=
  let* (l, s) := broadcast_tensors loc scale in
  Ok (mk l s).

Definition mean (d : t) : tensor R := loc d.

(** The standard normal draws of one call, one per entry:
    [randn i j] is the draw for row [i], column [j]. *)
Definition randn_like (randn : nat -> nat -> R) (x : tensor R) : tensor R :=
  match x with
  | T0 _ => T0 (randn 0%nat 0%nat)
  | T1 v => T1 (map (randn 0%nat) (seq 0 (length v)))
  | T2 m => T2 (map2 (fun i r => map (randn i) (seq 0 (length r)))
                     (seq 0 (length m)) m)
  end.

(** [loc + eps * scale] *)
Definition rsample (d : t) (randn : nat -> nat -> R) : result (tensor R) :=
  let eps := randn_like randn (loc d) in
  let* noise := tmul eps (scale d) in
  tadd (loc d) noise.

(** [-((value - loc) ** 2) / (2 * var) - log_scale - log(sqrt(2 * pi))],
    for a value that broadcasts against the parameters. *)
Definition log_prob (d : t) (value : tensor R) : result (tensor R) :=
  let var := tsquare (scale d) in
  let log_scale := tlog (scale d) in
  let* dev := refused (tsub value (loc d)) in
  let* q := tdiv (tmap Ropp (tsquare dev)) (tmap (Rmult 2) var) in
  let* r := tsub q log_scale in
  Ok (tmap (fun x => x - ln (sqrt (2 * PI))) r).

(** [0.5 + 0.5 * log(2 * pi) + log(scale)] *)
Definition entropy (d : t) : tensor R :=
  tmap (fun x => 0.5 + 0.5 * ln (2 * PI) + x) (tlog (scale d)).

End Normal.

Module Categorical.

(** [Categorical(logits=...)] keeps the normalised logits. *)
Record t : Type := mk { logits : tensor R }.

Definition logsumexp (row : list R) : R := ln (Rsum (map exp row)).

Definition normalise (row : list R) : list R :=
  map (fun x => x - logsumexp row) row.

Definition softmax (row : list R) : list R :=
  map (fun x => exp x / Rsum (map exp row)) row.

Definition init (logits : tensor R) : result t :=
  match logits with
  | T0 _ => Raise ValueError
  | T1 v => Ok (mk (T1 (normalise v)))
  | T2 m => Ok (mk (T2 (map normalise m)))
  end.

(** [F.softmax(logits, dim=-1)] *)
Definition probs (d : t) : tensor R :=
  match logits d with
  | T0 x => T0 x
  | T1 v => T1 (softmax v)
  | T2 m => T2 (map softmax m)
  end.

(** [-(logits * probs).sum(-1)] *)
Definition entropy (d : t) : result (tensor R) :=
  let* p_log_p := tmul (logits d) (probs d) in
  let* s := sum_last p_log_p in
  Ok (tmap Ropp s).

(** One index per batch row, drawn by [torch.multinomial]:
    [draw i p] is the index drawn for row [i] with probabilities [p]. *)
Definition sample (d : t) (draw : nat -> list R -> nat) : result (tensor nat) :=
  match probs d with
  | T0 _ => Raise IndexError
  | T1 v => Ok (T0 (draw 0%nat v))
  | T2 m => Ok (T1 (map2 draw (seq 0 (length m)) m))
  end.

(** The rows of log-probabilities, one per batch element. *)
Definition batch_rows (d : t) : tensor (list R) :=
  match logits d with
  | T0 x => T0 [x]
  | T1 v => T0 v
  | T2 m => T1 m
  end.

(** [log_pmf.gather(-1, value)] on one row: an index outside the row is
    not in the support. *)
Definition gather (i : Z) (row : list R) : result R :=
  if (i <? 0)%Z then Raise ValueError
  else match nth_error row (Z.to_nat i) with
       | Some x => Ok x
       | None => Raise ValueError
       end.

(** The indices are broadcast against the batch of rows, then each picks
    its entry; indices that do not broadcast, or lie outside their row, are
    refused. *)
Definition log_prob (d : t) (value : tensor Z) : result (tensor R) :=
  refused (let* picked := broadcast gather value (batch_rows d) in
           tsequence picked).

End Categorical.

Inductive torch_distribution : Type :=
| TNormal (d : Normal.t)
| TCategorical (d : Categorical.t).

(** A [th.Tensor] carries its dtype: actions are float tensors for the
    Gaussian heads and index tensors for the categorical head. *)
Inductive Tensor : Type :=
| FloatTensor (x : tensor R)
| LongTensor (x : tensor nat).

(** The random draws one call may consume. *)
Record rng : Type := { randn : nat -> nat -> R; multinomial : nat -> list R -> nat }.

(** ** The class hierarchy *)

Inductive class : Type :=
| Distribution_cls
| DiagGaussianDistribution_cls
| SquashedDiagGaussianDistribution_cls
| CategoricalDistribution_cls.

Inductive method : Type :=
| M_log_prob | M_kl_div | M_entropy | M_sample | M_mode
| M_proba_distribution_net | M_proba_distribution | M_log_prob_from_params.

(** The base class named in each [class] statement. *)
Definition base (c : class) : option class :=
  match c with
  | Distribution_cls => None
  | DiagGaussianDistribution_cls => Some Distribution_cls
  | SquashedDiagGaussianDistribution_cls => Some DiagGaussianDistribution_cls
  | CategoricalDistribution_cls => Some Distribution_cls
  end.

(** The methods each class body defines. *)
Definition defines (c : class) (m : method) : bool :=
  match c, m with
  | Distribution_cls, (M_log_prob | M_kl_div | M_entropy | M_sample) => true
  | DiagGaussianDistribution_cls,
    (M_proba_distribution_net | M_proba_distribution | M_mode | M_sample
     | M_entropy | M_log_prob_from_params | M_log_prob) => true
  | SquashedDiagGaussianDistribution_cls,
    (M_proba_distribution | M_mode | M_sample | M_log_prob_from_params
     | M_log_prob) => true
  | CategoricalDistribution_cls,
    (M_proba_distribution_net | M_proba_distribution | M_mode | M_sample
     | M_entropy | M_log_prob_from_params | M_log_prob) => true
  | _, _ => false
  end.

(** Method resolution order of single inheritance: the class, then its bases. *)
Fixpoint mro_fuel (fuel : nat) (c : class) : list class :=
  match fuel with
  | O => []
  | S k => c :: match base c with
                | Some b => mro_fuel k b
                | None => []
                end
  end.

Definition mro (c : class) : list class := mro_fuel 4 c.

(** The class whose body runs when method [m] is called on an instance of [c]. *)
Definition resolve (c : class) (m : method) : option class :=
  find (fun k => defines k m) (mro c).

(** ** Instances *)

(** The attributes of an instance. [epsilon] and [gaussian_action] are
    declared by the squashed class only and read by its methods only;
    [mean_actions] and [log_std] are set to [None] once and never read. *)
Record instance : Type := mkInstance {
  class_of : class;
  distribution : option torch_distribution;
  action_dim : nat;
  epsilon : R;
  gaussian_action : option (tensor R)
}.

Definition set_distribution (self : instance) (d : torch_distribution) : instance :=
  mkInstance (class_of self) (Some d) (action_dim self) (epsilon self)
             (gaussian_action self).

Definition set_gaussian_action (self : instance) (g : tensor R) : instance :=
  mkInstance (class_of self) (distribution self) (action_dim self) (epsilon self)
             (Some g).

(** [self.distribution] as the Gaussian methods use it: reading an attribute
    of [None] is an [AttributeError]. *)
Definition normal_of (self : instance) : result Normal.t :=
  match distribution self with
  | Some (TNormal n) => Ok n
  | _ => Raise AttributeError
  end.

Definition categorical_of (self : instance) : result Categorical.t :=
  match distribution self with
  | Some (TCategorical c) => Ok c
  | _ => Raise AttributeError
  end.

(** *** class Distribution *)

Definition Distribution_log_prob (self : instance) (x : Tensor) : result (tensor R) :=
  Raise (NotImplementedError EmptyString).

Definition Distribution_kl_div (self other : instance) : result (tensor R) :=
  Raise (NotImplementedError EmptyString).

Definition Distribution_entropy (self : instance) : result (tensor R) :=
  Raise (NotImplementedError EmptyString).

Definition Distribution_sample (self : instance) : result (Tensor * instance) :=
  Raise (NotImplementedError EmptyString).

(** *** class DiagGaussianDistribution(Distribution) *)

Definition DiagGaussianDistribution_init (action_dim : nat) : instance :=
  mkInstance DiagGaussianDistribution_cls None action_dim 0 None.

Definition DiagGaussianDistribution_mode (self : instance)
  : result (tensor R * instance) :=
  let* n := normal_of self in
  Ok (Normal.mean n, self).

Definition DiagGaussianDistribution_sample (self : instance) (g : rng)
  : result (tensor R * instance) :=
  let* n := normal_of self in
  let* x := Normal.rsample n (randn g) in
  Ok (x, self).

Definition DiagGaussianDistribution_entropy (self : instance) : result (tensor R) :=
  let* n := normal_of self in
  Ok (Normal.entropy n).

Definition DiagGaussianDistribution_log_prob (self : instance) (action : tensor R)
  : result (tensor R) :=
  let* n := normal_of self in
  let* log_prob := Normal.log_prob n action in
  if (1 <? rank log_prob)%nat then sum_dim1 log_prob
  else Ok (sum_all log_prob).

(** *** class SquashedDiagGaussianDistribution(DiagGaussianDistribution) *)

Definition default_epsilon : R := 1 / 1000000.

Definition SquashedDiagGaussianDistribution_init (action_dim : nat)
  (epsilon : option R) : instance :=
  mkInstance SquashedDiagGaussianDistribution_cls None action_dim
             (match epsilon with Some e => e | None => default_epsilon end) None.

(** [return th.tanh(self.gaussian_action)] *)
Definition cached_tanh (self : instance) : result (tensor R * instance) :=
  match gaussian_action self with
  | Some ga => Ok (ttanh ga, self)
  | None => Raise TypeError
  end.

Definition SquashedDiagGaussianDistribution_mode (self : instance)
  : result (tensor R * instance) :=
  let* n := normal_of self in
  let self := set_gaussian_action self (Normal.mean n) in
  cached_tanh self.

Definition SquashedDiagGaussianDistribution_sample (self : instance) (g : rng)
  : result (tensor R * instance) :=
  let* n := normal_of self in
  let* x := Normal.rsample n (randn g) in
  let self := set_gaussian_action self x in
  cached_tanh self.

(** [th.from_numpy(np.arctanh(action.cpu().numpy()))]: a tensor that
    requires grad has no [numpy()], and the arctanh of a rank-0 array is a
    scalar, which [from_numpy] does not take. *)
Definition from_numpy_arctanh (action : tensor R) (requires_grad : bool)
  : result (tensor R) :=
  if requires_grad then Raise RuntimeError
  else match action with
       | T0 _ => Raise TypeError
       | _ => Ok (tarctanh action)
       end.

(** [log_prob(action, gaussian_action)], for an action that requires grad
    or not. *)
Definition SquashedDiagGaussianDistribution_log_prob_autograd (self : instance)
  (action : tensor R) (requires_grad : bool)
  (gaussian_action : option (tensor R)) : result (tensor R) :=
  let* gaussian_action :=
    match gaussian_action with
    | None => from_numpy_arctanh action requires_grad
    | Some ga => Ok ga
    end in
  let* log_prob := DiagGaussianDistribution_log_prob self gaussian_action in
  let* correction :=
    sum_dim1 (tlog (tmap (fun a => 1 - a ^ 2 + epsilon self) action)) in
  isub log_prob correction.

(** The same call on an action that does not require grad. *)
Definition SquashedDiagGaussianDistribution_log_prob (self : instance)
  (action : tensor R) (gaussian_action : option (tensor R)) : result (tensor R) :=
  SquashedDiagGaussianDistribution_log_prob_autograd self action false
    gaussian_action.

(** *** class CategoricalDistribution(Distribution) *)

Definition CategoricalDistribution_init (action_dim : nat) : instance :=
  mkInstance CategoricalDistribution_cls None action_dim 0 None.

Definition CategoricalDistribution_mode (self : instance)
  : result (tensor nat * instance) :=
  let* c := categorical_of self in
  let* i := argmax_dim1 (Categorical.probs c) in
  Ok (i, self).

Definition CategoricalDistribution_sample (self : instance) (g : rng)
  : result (tensor nat * instance) :=
  let* c := categorical_of self in
  let* i := Categorical.sample c (multinomial g) in
  Ok (i, self).

Definition CategoricalDistribution_entropy (self : instance) : result (tensor R) :=
  let* c := categorical_of self in
  Categorical.entropy c.

(** *** Method calls on an instance: the body found along the MRO runs *)

Definition as_float (r : result (tensor R * instance)) : result (Tensor * instance) :=
  let* (x, self) := r in Ok (FloatTensor x, self).

Definition as_long (r : result (tensor nat * instance)) : result (Tensor * instance) :=
  let* (x, self) := r in Ok (LongTensor x, self).

Definition mode (self : instance) : result (Tensor * instance) :=
  match resolve (class_of self) M_mode with
  | Some DiagGaussianDistribution_cls => as_float (DiagGaussianDistribution_mode self)
  | Some SquashedDiagGaussianDistribution_cls =>
      as_float (SquashedDiagGaussianDistribution_mode self)
  | Some CategoricalDistribution_cls => as_long (CategoricalDistribution_mode self)
  | _ => Raise AttributeError
  end.

Definition sample (self : instance) (g : rng) : result (Tensor * instance) :=
  match resolve (class_of self) M_sample with
  | Some Distribution_cls => Distribution_sample self
  | Some DiagGaussianDistribution_cls => as_float (DiagGaussianDistribution_sample self g)
  | Some SquashedDiagGaussianDistribution_cls =>
      as_float (SquashedDiagGaussianDistribution_sample self g)
  | Some CategoricalDistribution_cls => as_long (CategoricalDistribution_sample self g)
  | None => Raise AttributeError
  end.

Definition entropy (self : instance) : result (tensor R) :=
  match resolve (class_of self) M_entropy with
  | Some Distribution_cls => Distribution_entropy self
  | Some DiagGaussianDistribution_cls => DiagGaussianDistribution_entropy self
  | Some CategoricalDistribution_cls => CategoricalDistribution_entropy self
  | _ => Raise AttributeError
  end.

Definition kl_div (self other : instance) : result (tensor R) :=
  match resolve (class_of self) M_kl_div with
  | Some Distribution_cls => Distribution_kl_div self other
  | _ => Raise AttributeError
  end.

(** *** proba_distribution *)

Definition DiagGaussianDistribution_proba_distribution (self : instance)
  (mean_actions log_std : tensor R) (deterministic : bool) (g : rng)
  : result (Tensor * instance) :=
  let* action_std := tmul (ones_like mean_actions) (texp log_std) in
  let* n := Normal.init mean_actions action_std in
  let self := set_distribution self (TNormal n) in
  if deterministic then mode self else sample self g.

Definition SquashedDiagGaussianDistribution_proba_distribution (self : instance)
  (mean_actions log_std : tensor R) (deterministic : bool) (g : rng)
  : result (Tensor * instance) :=
  let* (action, self) :=
    DiagGaussianDistribution_proba_distribution self mean_actions log_std
      deterministic g in
  Ok (action, self).

Definition CategoricalDistribution_proba_distribution (self : instance)
  (action_logits : tensor R) (deterministic : bool) (g : rng)
  : result (Tensor * instance) :=
  let* c := Categorical.init action_logits in
  let self := set_distribution self (TCategorical c) in
  if deterministic then mode self else sample self g.

(** *** log_prob on any instance *)

(** Arithmetic with a float tensor promotes an index tensor to floats. *)
Definition float_of (x : Tensor) : tensor R :=
  match x with
  | FloatTensor t => t
  | LongTensor t => tmap INR t
  end.

(** The indices an action stands for. *)
Definition long_of (x : Tensor) : result (tensor Z) :=
  match x with
  | FloatTensor t => tsequence (tmap integer_of t)
  | LongTensor t => Ok (tmap Z.of_nat t)
  end.

Definition CategoricalDistribution_log_prob (self : instance) (action : Tensor)
  : result (tensor R) :=
  let* c := categorical_of self in
  let* value := long_of action in
  Categorical.log_prob c value.

(** [self.log_prob(action)] and [self.log_prob(action, gaussian_action)];
    only the squashed class takes the second argument. The callers below
    hand the squashed class its cached pre-squash value, so the action is
    not taken through numpy; the call is read at an action that does not
    require grad. *)
Definition log_prob (self : instance) (action : Tensor)
  (gaussian_action : option (tensor R)) : result (tensor R) :=
  match resolve (class_of self) M_log_prob, gaussian_action with
  | Some Distribution_cls, None => Distribution_log_prob self action
  | Some DiagGaussianDistribution_cls, None =>
      DiagGaussianDistribution_log_prob self (float_of action)
  | Some SquashedDiagGaussianDistribution_cls, _ =>
      SquashedDiagGaussianDistribution_log_prob self (float_of action)
        gaussian_action
  | Some CategoricalDistribution_cls, None =>
      CategoricalDistribution_log_prob self action
  | Some _, Some _ => Raise TypeError
  | None, _ => Raise AttributeError
  end.

(** [self.proba_distribution(...)] as the methods below call it, with one
    or two tensors and [deterministic] left to its default where the class
    takes both tensors as parameters. The categorical class reads a second
    tensor as [deterministic]. *)
Definition proba_distribution (self : instance) (args : list (tensor R)) (g : rng)
  : result (Tensor * instance) :=
  match resolve (class_of self) M_proba_distribution, args with
  | Some DiagGaussianDistribution_cls, [mean_actions; log_std] =>
      DiagGaussianDistribution_proba_distribution self mean_actions log_std
        false g
  | Some SquashedDiagGaussianDistribution_cls, [mean_actions; log_std] =>
      SquashedDiagGaussianDistribution_proba_distribution self mean_actions
        log_std false g
  | Some CategoricalDistribution_cls, [action_logits] =>
      CategoricalDistribution_proba_distribution self action_logits false g
  | Some CategoricalDistribution_cls, [action_logits; deterministic] =>
      let* _ := Categorical.init action_logits in
      let* b := truthy deterministic in
      CategoricalDistribution_proba_distribution self action_logits b g
  | Some _, _ => Raise TypeError
  | None, _ => Raise AttributeError
  end.

(** *** log_prob_from_params *)

Definition DiagGaussianDistribution_log_prob_from_params (self : instance)
  (mean_actions log_std : tensor R) (g : rng)
  : result (Tensor * tensor R * instance) :=
  let* (action, self) := proba_distribution self [mean_actions; log_std] g in
  let* lp := log_prob self action None in
  Ok (action, lp, self).

Definition SquashedDiagGaussianDistribution_log_prob_from_params
  (self : instance) (mean_actions log_std : tensor R) (g : rng)
  : result (Tensor * tensor R * instance) :=
  let* (action, self) := proba_distribution self [mean_actions; log_std] g in
  let* lp := log_prob self action (gaussian_action self) in
  Ok (action, lp, self).

Definition CategoricalDistribution_log_prob_from_params (self : instance)
  (action_logits : tensor R) (g : rng)
  : result (Tensor * tensor R * instance) :=
  let* (action, self) := proba_distribution self [action_logits] g in
  let* lp := log_prob self action None in
  Ok (action, lp, self).

(** *** proba_distribution_net *)

(** [nn.Linear(in_features, out_features)]: a weight row and a bias per
    output. The initial values are drawn at construction; [w0 o i] and
    [b0 o] are those draws. *)
Record Linear : Type := mkLinear {
  in_features : nat;
  out_features : nat;
  weight : list (list R);
  bias : list R
}.

Definition nn_Linear (w0 : nat -> nat -> R) (b0 : nat -> R)
  (in_features out_features : nat) : Linear :=
  mkLinear in_features out_features
    (map (fun o => map (w0 o) (seq 0 in_features)) (seq 0 out_features))
    (map b0 (seq 0 out_features)).

(** [log_std_init] defaults to 0.0. *)
Definition DiagGaussianDistribution_proba_distribution_net (self : instance)
  (w0 : nat -> nat -> R) (b0 : nat -> R) (latent_dim : nat)
  (log_std_init : option R) : Linear * tensor R :=
  let log_std_init := match log_std_init with Some x => x | None => 0 end in
  let mean_actions := nn_Linear w0 b0 latent_dim (action_dim self) in
  let log_std :=
    tmap (fun one => one * log_std_init) (T1 (repeat 1 (action_dim self))) in
  (mean_actions, log_std).

Definition CategoricalDistribution_proba_distribution_net (self : instance)
  (w0 : nat -> nat -> R) (b0 : nat -> R) (latent_dim : nat) : Linear :=
  nn_Linear w0 b0 latent_dim (action_dim self).

(** ** The factory *)

(** The action spaces of [gym.spaces], and any other object a caller passes. *)
Inductive space : Type :=
| Box (shape : list nat)
| Discrete (n : nat)
| MultiDiscrete (nvec : list nat)
| MultiBinary (n : nat)
| Foreign (type_repr : string).

(** [str(type(action_space))] *)
Definition type_repr (s : space) : string :=
  match s with
  | Box _ => "<class 'gym.spaces.box.Box'>"
  | Discrete _ => "<class 'gym.spaces.discrete.Discrete'>"
  | MultiDiscrete _ => "<class 'gym.spaces.multi_discrete.MultiDiscrete'>"
  | MultiBinary _ => "<class 'gym.spaces.multi_binary.MultiBinary'>"
  | Foreign r => r
  end.

Definition unsupported_prefix : string :=
  "Error: probability distribution, not implemented for action space of type ".

Definition unsupported_suffix : string :=
  " Must be of type Gym Spaces: Box, Discrete, MultiDiscrete or MultiBinary.".

Definition unsupported_message (s : space) : string :=
  (unsupported_prefix ++ type_repr s ++ ".") ++ unsupported_suffix.

Definition make_proba_distribution (action_space : space) : result instance :=
  match action_space with
  | Box shape =>
      match shape with
      | [d] => Ok (DiagGaussianDistribution_init d)
      | _ => Raise (AssertionError "Error: the action space must be a vector")
      end
  | Discrete n => Ok (CategoricalDistribution_init n)
  | _ => Raise (NotImplementedError (unsupported_message action_space))
  end.

(** ** Specification-level vocabulary *)

(** Log-density of the normal law of mean [mu] and deviation [sigma] at [x]. *)
Definition normal_logpdf (mu sigma x : R) : R :=
  - (x - mu) ^ 2 / (2 * sigma ^ 2) - ln sigma - ln (sqrt (2 * PI)).

Fixpoint map3 {A B C D : Type} (f : A -> B -> C -> D)
  (u : list A) (v : list B) (w : list C) : list D :=
  match u, v, w with
  | x :: u', y :: v', z :: w' => f x y z :: map3 f u' v' w'
  | _, _, _ => []
  end.

(** Same number of rows, and rows of the same lengths. *)
Definition same_rows {A B : Type} (m : list (list A)) (n : list (list B)) : Prop :=
  Forall2 (fun r s => length r = length s) m n.

(** Two tensors of the same rank and the same shape. *)
Definition like {A B : Type} (a : tensor A) (b : tensor B) : Prop :=
  match a, b with
  | T0 _, T0 _ => True
  | T1 u, T1 v => length u = length v
  | T2 m, T2 n => same_rows m n
  | _, _ => False
  end.

(** A Gaussian head is parameterized once [proba_distribution] has stored a
    [Normal] whose two parameters share one shape. *)
Definition gaussian_parameterized (self : instance) (n : Normal.t) : Prop :=
  distribution self = Some (TNormal n) /\ like (Normal.loc n) (Normal.scale n).

(** Every entry of a tensor satisfies [P]. *)
Definition tforall {A : Type} (P : A -> Prop) (t : tensor A) : Prop :=
  match t with
  | T0 x => P x
  | T1 v => Forall P v
  | T2 m => Forall (Forall P) m
  end.

Definition row_log_density (mu sigma x : list R) : R :=
  Rsum (map3 normal_logpdf mu sigma x).

(** Draws that are all zero, for examples. *)
Definition zero_draws : rng :=
  {| randn := fun _ _ => 0; multinomial := fun _ _ => 0%nat |}.

Definition unit_head (c : class) (mean std : tensor R) : instance :=
  mkInstance c (Some (TNormal (Normal.mk mean std))) 1 default_epsilon None.

(** The mean has the batch shape that goes with a [log_std] vector. *)
Definition mean_matches (mean : tensor R) (log_std : list R) : Prop :=
  match mean with
  | T0 _ => False
  | T1 mu => length mu = length log_std
  | T2 rows => Forall (fun r => length r = length log_std) rows
  end.

(** [exp(log_std)] repeated along the batch. *)
Definition action_std (mean : tensor R) (log_std : list R) : tensor R :=
  match mean with
  | T2 rows => T2 (map (fun _ => map exp log_std) rows)
  | _ => T1 (map exp log_std)
  end.

(** Sum over the action dimensions of [-(log_std_d + 0.5 * log(2 * pi))]. *)
Definition peak_log_density (log_std : list R) : R :=
  Rsum (map (fun l => - (l + 0.5 * ln (2 * PI))) log_std).

(** Sum over the action dimensions of [log(1 - a^2 + epsilon)]. *)
Definition squash_correction (eps : R) (a_row : list R) : R :=
  Rsum (map (fun a => ln (1 - a ^ 2 + eps)) a_row).

(** [sub] occurs in [msg]. *)
Definition occurs_in (sub msg : string) : Prop :=
  exists pre post, msg = (pre ++ sub ++ post)%string.

(** [i] is the index of the largest entry of [l], the lowest such index. *)
Definition first_max (i : nat) (l : list R) : Prop :=
  (i < length l)%nat
  /\ (forall j, (j < length l)%nat -> nth j l 0 <= nth i l 0)
  /\ (forall j, (j < i)%nat -> nth j l 0 < nth i l 0).

(** Shannon entropy of the distribution a row of logits defines. *)
Definition row_entropy (r : list R) : R :=
  - Rsum (map2 Rmult (Categorical.normalise r)
                     (Categorical.softmax (Categorical.normalise r))).

Definition uniform3_head : instance :=
  mkInstance CategoricalDistribution_cls
    (Some (TCategorical
             (Categorical.mk (T2 (map Categorical.normalise [[0; 0; 0]])))))
    3 0 None.

(** The standard normal draws of batch row [i], one per action dimension. *)
Definition noise_row (g : rng) (i d : nat) : list R :=
  map (randn g i) (seq 0 d).

(** [mean + noise * exp(log_std)], dimension by dimension. *)
Definition sampled_row (mu es log_std : list R) : list R :=
  map3 (fun m e l => m + e * exp l) mu es log_std.

(** Log-density of a reparameterized draw, in terms of its noise. *)
Definition noise_log_density (es log_std : list R) : R :=
  Rsum (map2 (fun e l => - e ^ 2 / 2 - l - 0.5 * ln (2 * PI)) es log_std).

(** A fresh instance with the constructor arguments of [self]. *)
Definition unparameterized (self : instance) : instance :=
  mkInstance (class_of self) None (action_dim self) (epsilon self) None.

(** Log-probability of index [i] under a row of logits. *)
Definition log_pmf (row : list R) (i : nat) : R :=
  nth i row 0 - Categorical.logsumexp row.

(** ** Lists and broadcasting *)

Section Broadcasting.

Context {A B C : Type} (f : A -> B -> C).

Lemma map2_length (u : list A) (v : list B) :
  length u = length v -> length (map2 f u v) = length u.
Proof.
  revert v; induction u as [|x u IH]; intros [|y v] H; simpl in *;
    try discriminate; auto.
Qed.

Lemma bvec_same (u : list A) (v : list B) :
  length u = length v -> bvec f u v = Ok (map2 f u v).
Proof.
  intros H. unfold bvec. rewrite H, Nat.eqb_refl. reflexivity.
Qed.

Lemma same_rows_length (m : list (list A)) (n : list (list B)) :
  same_rows m n -> length m = length n.
Proof. induction 1; simpl; auto. Qed.

Lemma mapM2_bvec_same (m : list (list A)) (n : list (list B)) :
  same_rows m n -> mapM2 (bvec f) m n = Ok (map2 (map2 f) m n).
Proof.
  induction 1 as [|r s m n Hrs _ IH]; simpl; auto.
  rewrite (bvec_same _ _ Hrs); simpl. rewrite IH; reflexivity.
Qed.

Lemma bmat_same (m : list (list A)) (n : list (list B)) :
  same_rows m n -> bmat f m n = Ok (map2 (map2 f) m n).
Proof.
  intros H. unfold bmat.
  rewrite (same_rows_length _ _ H), Nat.eqb_refl. now apply mapM2_bvec_same.
Qed.

Lemma same_rows_map2_l (m : list (list A)) (n : list (list B)) :
  same_rows m n -> same_rows (map2 (map2 f) m n) m.
Proof.
  induction 1 as [|r s m n Hrs _ IH]; simpl; constructor; auto.
  now apply map2_length.
Qed.

Lemma broadcast_T1 (u : list A) (v : list B) :
  length u = length v -> broadcast f (T1 u) (T1 v) = Ok (T1 (map2 f u v)).
Proof. intros H; simpl. now rewrite bvec_same. Qed.

Lemma broadcast_T2 (m : list (list A)) (n : list (list B)) :
  same_rows m n -> broadcast f (T2 m) (T2 n) = Ok (T2 (map2 (map2 f) m n)).
Proof. intros H; simpl. now rewrite bmat_same. Qed.

(** A row against a batch of rows of its length: the row is repeated. *)
Lemma bmat_row_r (m : list (list A)) (v : list B) :
  Forall (fun r => length r = length v) m ->
  bmat f m [v] = Ok (map (fun r => map2 f r v) m).
Proof.
  intros H. unfold bmat.
  assert (E : mapM (fun r => bvec f r v) m = Ok (map (fun r => map2 f r v) m)).
  { induction H as [|r m Hr _ IH]; simpl; auto.
    rewrite (bvec_same _ _ Hr); simpl. now rewrite IH. }
  destruct m as [|r [|r' m']]; simpl; auto.
Qed.

End Broadcasting.

Lemma same_rows_refl {A : Type} (m : list (list A)) : same_rows m m.
Proof. induction m; constructor; auto. Qed.

Lemma same_rows_sym {A B : Type} (m : list (list A)) (n : list (list B)) :
  same_rows m n -> same_rows n m.
Proof. induction 1; constructor; auto. Qed.

Lemma same_rows_trans {A B C : Type}
  (m : list (list A)) (n : list (list B)) (p : list (list C)) :
  same_rows m n -> same_rows n p -> same_rows m p.
Proof.
  intros H; revert p; induction H; intros p Hp; inversion_clear Hp;
    constructor; [congruence | now apply IHForall2].
Qed.

Lemma same_rows_map_l {A B C : Type} (f : A -> C)
  (m : list (list A)) (n : list (list B)) :
  same_rows m n -> same_rows (map (map f) m) n.
Proof. induction 1; simpl; constructor; auto. now rewrite length_map. Qed.

Lemma same_rows_map_r {A B C : Type} (f : B -> C)
  (m : list (list A)) (n : list (list B)) :
  same_rows m n -> same_rows m (map (map f) n).
Proof. induction 1; simpl; constructor; auto. now rewrite length_map. Qed.

Lemma map2_fst {A B : Type} (u : list A) (v : list B) :
  length u = length v -> map2 (fun x _ => x) u v = u.
Proof.
  revert v; induction u as [|x u IH]; intros [|y v] H; simpl in *;
    try discriminate; auto. f_equal; auto.
Qed.

Lemma map2_snd {A B : Type} (u : list A) (v : list B) :
  length u = length v -> map2 (fun _ y => y) u v = v.
Proof.
  revert v; induction u as [|x u IH]; intros [|y v] H; simpl in *;
    try discriminate; auto. f_equal; auto.
Qed.

Lemma map2_rows_fst {A B : Type} (m : list (list A)) (n : list (list B)) :
  same_rows m n -> map2 (map2 (fun x _ => x)) m n = m.
Proof. induction 1; simpl; auto. rewrite map2_fst by auto. now f_equal. Qed.

Lemma map2_rows_snd {A B : Type} (m : list (list A)) (n : list (list B)) :
  same_rows m n -> map2 (map2 (fun _ y => y)) m n = n.
Proof. induction 1; simpl; auto. rewrite map2_snd by auto. now f_equal. Qed.

(** Broadcasting two tensors of one shape changes neither. *)
Lemma broadcast_tensors_like (a b : tensor R) :
  like a b -> broadcast_tensors a b = Ok (a, b).
Proof.
  destruct a as [x|u|m], b as [y|v|n]; simpl; try contradiction; intros H.
  - reflexivity.
  - unfold broadcast_tensors. rewrite !broadcast_T1 by auto; simpl.
    now rewrite map2_fst, map2_snd.
  - unfold broadcast_tensors. rewrite !broadcast_T2 by auto; simpl.
    now rewrite map2_rows_fst, map2_rows_snd.
Qed.

(** ** The Gaussian log-density on tensors of one shape *)

Lemma map3_length {A B C D : Type} (f : A -> B -> C -> D) u v w :
  length u = length w -> length v = length w -> length (map3 f u v w) = length w.
Proof.
  revert v w; induction u as [|x u IH]; intros [|y v] [|z w] H1 H2;
    simpl in *; try discriminate; auto.
Qed.

Lemma log_prob_entries (l s v : list R) :
  length v = length l -> length l = length s ->
  map (fun x => x - ln (sqrt (2 * PI)))
    (map2 Rminus
       (map2 Rdiv (map Ropp (map (fun x => x ^ 2) (map2 Rminus v l)))
                  (map (Rmult 2) (map (fun x => x ^ 2) s)))
       (map ln s))
  = map3 normal_logpdf l s v.
Proof.
  revert l s; induction v as [|x v IH]; intros [|mu l] [|sigma s] H1 H2;
    simpl in *; try discriminate; auto.
  f_equal. apply IH; congruence.
Qed.

Lemma log_prob_rows (L S V : list (list R)) :
  same_rows V L -> same_rows L S ->
  map (map (fun x => x - ln (sqrt (2 * PI))))
    (map2 (map2 Rminus)
       (map2 (map2 Rdiv)
          (map (map Ropp) (map (map (fun x => x ^ 2)) (map2 (map2 Rminus) V L)))
          (map (map (Rmult 2)) (map (map (fun x => x ^ 2)) S)))
       (map (map ln) S))
  = map3 (map3 normal_logpdf) L S V.
Proof.
  intros HV; revert S; induction HV as [|v l V L Hvl _ IH]; intros S HS;
    inversion_clear HS; simpl; auto.
  f_equal; [now apply log_prob_entries | now apply IH].
Qed.

Lemma Normal_log_prob_T0 (n : Normal.t) (mu sigma x : R) :
  Normal.loc n = T0 mu -> Normal.scale n = T0 sigma ->
  Normal.log_prob n (T0 x) = Ok (T0 (normal_logpdf mu sigma x)).
Proof. intros Hl Hs. unfold Normal.log_prob. rewrite Hl, Hs. reflexivity. Qed.

Lemma Normal_log_prob_T1 (n : Normal.t) (l s v : list R) :
  Normal.loc n = T1 l -> Normal.scale n = T1 s ->
  length v = length l -> length l = length s ->
  Normal.log_prob n (T1 v) = Ok (T1 (map3 normal_logpdf l s v)).
Proof.
  intros Hl Hs H1 H2. unfold Normal.log_prob, tsub, tdiv, tsquare, tlog.
  rewrite Hl, Hs. rewrite broadcast_T1 by assumption. cbn [bind tmap refused].
  rewrite broadcast_T1
    by (rewrite !length_map, map2_length by assumption; congruence).
  cbn [bind tmap refused].
  rewrite broadcast_T1
    by (rewrite length_map, map2_length;
        rewrite !length_map, ?map2_length by assumption; congruence).
  cbn [bind tmap refused]. now rewrite log_prob_entries.
Qed.

Lemma Normal_log_prob_T2 (n : Normal.t) (L S V : list (list R)) :
  Normal.loc n = T2 L -> Normal.scale n = T2 S ->
  same_rows V L -> same_rows L S ->
  Normal.log_prob n (T2 V) = Ok (T2 (map3 (map3 normal_logpdf) L S V)).
Proof.
  intros Hl Hs H1 H2. unfold Normal.log_prob, tsub, tdiv, tsquare, tlog.
  rewrite Hl, Hs. rewrite broadcast_T2 by assumption. cbn [bind tmap refused].
  assert (H3 : same_rows
                 (map (map Ropp) (map (map (fun x => x ^ 2))
                                   (map2 (map2 Rminus) V L)))
                 (map (map (Rmult 2)) (map (map (fun x => x ^ 2)) S))).
  { do 2 apply same_rows_map_l. do 2 apply same_rows_map_r.
    apply same_rows_trans with (n := V); [now apply same_rows_map2_l|].
    now apply same_rows_trans with (n := L). }
  rewrite broadcast_T2 by exact H3. cbn [bind tmap refused].
  rewrite broadcast_T2.
  - cbn [bind tmap refused]. now rewrite log_prob_rows.
  - apply same_rows_map_r.
    apply same_rows_trans with (n := map (map Ropp) (map (map (fun x => x ^ 2))
                                   (map2 (map2 Rminus) V L))).
    + now apply same_rows_map2_l.
    + do 2 apply same_rows_map_l.
      apply same_rows_trans with (n := V); [now apply same_rows_map2_l|].
      now apply same_rows_trans with (n := L).
Qed.

Lemma map3_rows_length (L S V : list (list R)) :
  same_rows V L -> same_rows L S ->
  length (map3 row_log_density L S V) = length V.
Proof.
  intros H1 H2. apply map3_length.
  - symmetry. now apply same_rows_length.
  - symmetry. apply same_rows_length. now apply same_rows_trans with (n := L).
Qed.

Lemma map_Rsum_map3 (L S V : list (list R)) :
  map Rsum (map3 (map3 normal_logpdf) L S V) = map3 row_log_density L S V.
Proof.
  revert S V; induction L as [|l L IH]; intros [|s S] [|v V]; simpl; auto.
  now rewrite IH.
Qed.

(** ** DiagGaussianDistribution *)

Lemma normal_of_parameterized (self : instance) (n : Normal.t) :
  distribution self = Some (TNormal n) -> normal_of self = Ok n.
Proof. intros H. unfold normal_of. now rewrite H. Qed.

(** The branch of [log_prob] looks at the log-density tensor, that is at the
    action broadcast against the parameters. *)
Lemma DiagGaussian_log_prob_branch (self : instance) (n : Normal.t)
  (value lp : tensor R) :
  distribution self = Some (TNormal n) ->
  Normal.log_prob n value = Ok lp ->
  DiagGaussianDistribution_log_prob self value =
    Ok (match lp with
        | T2 rows => T1 (map Rsum rows)
        | _ => sum_all lp
        end).
Proof.
  intros Hd Hlp. unfold DiagGaussianDistribution_log_prob.
  rewrite (normal_of_parameterized _ _ Hd); cbn [bind]. rewrite Hlp; cbn [bind].
  destruct lp; reflexivity.
Qed.

Lemma DiagGaussian_log_prob_T1 (self : instance) (n : Normal.t) (l s v : list R) :
  distribution self = Some (TNormal n) ->
  Normal.loc n = T1 l -> Normal.scale n = T1 s ->
  length v = length l -> length l = length s ->
  DiagGaussianDistribution_log_prob self (T1 v) = Ok (T0 (row_log_density l s v)).
Proof.
  intros Hd Hl Hs H1 H2.
  now rewrite (DiagGaussian_log_prob_branch self n _ _ Hd
                 (Normal_log_prob_T1 n l s v Hl Hs H1 H2)).
Qed.

Lemma DiagGaussian_log_prob_T2 (self : instance) (n : Normal.t)
  (L S V : list (list R)) :
  distribution self = Some (TNormal n) ->
  Normal.loc n = T2 L -> Normal.scale n = T2 S ->
  same_rows V L -> same_rows L S ->
  DiagGaussianDistribution_log_prob self (T2 V) =
    Ok (T1 (map3 row_log_density L S V)).
Proof.
  intros Hd Hl Hs H1 H2.
  rewrite (DiagGaussian_log_prob_branch self n _ _ Hd
             (Normal_log_prob_T2 n L S V Hl Hs H1 H2)).
  now rewrite map_Rsum_map3.
Qed.

(** C4, as stated, fails: a head parameterized on a batch of two rows
    answers a rank-1 action with two scalars, one per row of the batch, not
    with one scalar. *)
Lemma DiagGaussian_log_prob_rank1_action_batched_params :
  exists act self a b,
    DiagGaussianDistribution_proba_distribution
      (DiagGaussianDistribution_init 1) (T2 [[0]; [0]]) (T1 [0]) true zero_draws
    = Ok (act, self)
    /\ DiagGaussianDistribution_log_prob self (T1 [0]) = Ok (T1 [a; b])
    /\ ~ (exists x, DiagGaussianDistribution_log_prob self (T1 [0]) = Ok (T0 x)).
Proof.
  do 4 eexists. split; [reflexivity|]. split; [reflexivity|].
  intros [x Hx]. discriminate Hx.
Qed.

(** C4 (amended): for a parameterized DiagonalGaussian and an action of the
    shape of its parameters, [log_prob] on a batched action of B rows returns
    exactly B scalars, the sums of the per-dimension Gaussian log-densities
    of each row, and on a rank-1 action returns one scalar, the sum over its
    components; in general the branch is taken on the rank of the
    log-density tensor (the action broadcast against the parameters), whose
    rows are summed when it has rank 2. *)
Theorem DiagGaussian_log_prob_reduction :
  forall (self : instance) (n : Normal.t) (value : tensor R),
    gaussian_parameterized self n ->
    like value (Normal.loc n) ->
    match Normal.loc n, Normal.scale n, value with
    | T2 mus, T2 sigmas, T2 xs =>
        DiagGaussianDistribution_log_prob self value =
          Ok (T1 (map3 row_log_density mus sigmas xs))
        /\ length (map3 row_log_density mus sigmas xs) = length xs
    | T1 l, T1 s, T1 v =>
        DiagGaussianDistribution_log_prob self value =
          Ok (T0 (row_log_density l s v))
    | T0 mu, T0 sigma, T0 x =>
        DiagGaussianDistribution_log_prob self value =
          Ok (T0 (normal_logpdf mu sigma x))
    | _, _, _ => False
    end
    /\ forall (other lp : tensor R),
        Normal.log_prob n other = Ok lp ->
        DiagGaussianDistribution_log_prob self other =
          Ok (match lp with
              | T2 rows => T1 (map Rsum rows)
              | _ => sum_all lp
              end).
Proof.
  intros self n value [Hd Hls] Hv. split.
  - destruct (Normal.loc n) as [mu|l|L] eqn:El,
             (Normal.scale n) as [sigma|s|S] eqn:Es;
      simpl in Hls; try contradiction;
      destruct value as [x|v|V]; simpl in Hv; try contradiction.
    + now rewrite (DiagGaussian_log_prob_branch self n _ _ Hd
                     (Normal_log_prob_T0 n mu sigma x El Es)).
    + now apply DiagGaussian_log_prob_T1 with (n := n).
    + split; [now apply DiagGaussian_log_prob_T2 with (n := n)|].
      now apply map3_rows_length.
  - intros other lp Hlp. now apply DiagGaussian_log_prob_branch with (n := n).
Qed.

Lemma DiagGaussian_log_prob_reduction_witness :
  DiagGaussianDistribution_log_prob
    (unit_head DiagGaussianDistribution_cls (T2 [[0]; [1]]) (T2 [[1]; [1]]))
    (T2 [[0]; [0]])
  = Ok (T1 (map3 row_log_density [[0]; [1]] [[1]; [1]] [[0]; [0]])).
Proof.
  apply (DiagGaussian_log_prob_reduction
           (unit_head DiagGaussianDistribution_cls (T2 [[0]; [1]]) (T2 [[1]; [1]]))
           (Normal.mk (T2 [[0]; [1]]) (T2 [[1]; [1]]))
           (T2 [[0]; [0]])).
  - split; [reflexivity|]. simpl. repeat constructor.
  - simpl. repeat constructor.
Defined.

(** ** Parameterization *)

Lemma ones_times (r e : list R) :
  length r = length e -> map2 Rmult (map (fun _ => 1) r) e = e.
Proof.
  revert e; induction r as [|x r IH]; intros [|y e] H; simpl in *;
    try discriminate; auto.
  rewrite Rmult_1_l. f_equal. apply IH. congruence.
Qed.

Lemma action_std_correct (mean : tensor R) (log_std : list R) :
  mean_matches mean log_std ->
  tmul (ones_like mean) (texp (T1 log_std)) = Ok (action_std mean log_std).
Proof.
  destruct mean as [x|mu|rows]; intros H; simpl in H; try contradiction.
  - unfold tmul, ones_like, texp, action_std; cbn [tmap].
    rewrite broadcast_T1 by now rewrite !length_map.
    rewrite ones_times by now rewrite length_map. reflexivity.
  - unfold tmul, ones_like, texp, action_std; cbn [tmap broadcast].
    rewrite bmat_row_r.
    + cbn [bind]. do 2 f_equal. induction H as [|r rows Hr _ IH]; simpl; auto.
      rewrite ones_times by now rewrite length_map. now rewrite IH.
    + induction H; simpl; constructor; auto. now rewrite !length_map.
Qed.

Lemma like_action_std (mean : tensor R) (log_std : list R) :
  mean_matches mean log_std -> like mean (action_std mean log_std).
Proof.
  destruct mean as [x|mu|rows]; simpl; intros H; try contradiction.
  - now rewrite length_map.
  - induction H; simpl; constructor; auto. now rewrite length_map.
Qed.

Lemma Normal_init_like (loc scale : tensor R) :
  like loc scale -> Normal.init loc scale = Ok (Normal.mk loc scale).
Proof.
  intros H. unfold Normal.init. now rewrite broadcast_tensors_like.
Qed.

(** What [proba_distribution] stores, and how it picks the action. *)
Lemma DiagGaussian_proba_distribution_eq (self : instance)
  (mean : tensor R) (log_std : list R) (deterministic : bool) (g : rng) :
  mean_matches mean log_std ->
  DiagGaussianDistribution_proba_distribution self mean (T1 log_std)
    deterministic g =
  let self' :=
    set_distribution self (TNormal (Normal.mk mean (action_std mean log_std))) in
  if deterministic then mode self' else sample self' g.
Proof.
  intros H. unfold DiagGaussianDistribution_proba_distribution.
  rewrite action_std_correct by assumption; cbn [bind].
  rewrite Normal_init_like by now apply like_action_std.
  reflexivity.
Qed.

(** *** Reparameterized draws *)

Lemma randn_rows_same (randn : nat -> nat -> R) (m : list (list R)) (k : nat) :
  same_rows (map2 (fun i r => map (randn i) (seq 0 (length r)))
                  (seq k (length m)) m) m.
Proof.
  revert k; induction m as [|r m IH]; intros k; simpl; constructor.
  - now rewrite length_map, length_seq.
  - apply IH.
Qed.

Lemma like_randn_like (randn : nat -> nat -> R) (x : tensor R) :
  like (Normal.randn_like randn x) x.
Proof.
  destruct x as [x|v|m]; simpl; auto.
  - now rewrite length_map, length_seq.
  - apply randn_rows_same.
Qed.

Lemma like_trans {A B C : Type} (a : tensor A) (b : tensor B) (c : tensor C) :
  like a b -> like b c -> like a c.
Proof.
  destruct a, b, c; simpl; try contradiction; auto.
  - congruence.
  - apply same_rows_trans.
Qed.

Lemma like_sym {A B : Type} (a : tensor A) (b : tensor B) :
  like a b -> like b a.
Proof.
  destruct a, b; simpl; try contradiction; auto. apply same_rows_sym.
Qed.

(** An operation on two tensors of one shape returns a tensor of that shape. *)
Lemma broadcast_like (f : R -> R -> R) (a b : tensor R) :
  like a b -> exists c, broadcast f a b = Ok c /\ like c a.
Proof.
  destruct a as [x|u|m], b as [y|v|n]; simpl; try contradiction; intros H.
  - eexists; split; [reflexivity|exact I].
  - rewrite bvec_same by assumption. eexists; split; [reflexivity|].
    simpl. now apply map2_length.
  - rewrite bmat_same by assumption. eexists; split; [reflexivity|].
    simpl. now apply same_rows_map2_l.
Qed.

Lemma rsample_like (n : Normal.t) (randn : nat -> nat -> R) :
  like (Normal.loc n) (Normal.scale n) ->
  exists x, Normal.rsample n randn = Ok x /\ like x (Normal.loc n).
Proof.
  intros H. unfold Normal.rsample, tmul, tadd.
  destruct (broadcast_like Rmult (Normal.randn_like randn (Normal.loc n))
              (Normal.scale n)) as [e [He Hle]].
  { eapply like_trans; [apply like_randn_like|exact H]. }
  rewrite He; cbn [bind].
  destruct (broadcast_like Rplus (Normal.loc n) e) as [x [Hx Hlx]].
  { apply like_sym. eapply like_trans; [exact Hle|apply like_randn_like]. }
  exists x. split; assumption.
Qed.

(** ** The density at the mode *)

Lemma ln_sqrt_half (x : R) : 0 < x -> ln (sqrt x) = 0.5 * ln x.
Proof.
  intros Hx. assert (Hs : 0 < sqrt x) by now apply sqrt_lt_R0.
  assert (E : ln x = ln (sqrt x) + ln (sqrt x)).
  { rewrite <- ln_mult by assumption. now rewrite sqrt_sqrt by lra. }
  lra.
Qed.

Lemma normal_logpdf_at_mean (mu l : R) :
  normal_logpdf mu (exp l) mu = - (l + 0.5 * ln (2 * PI)).
Proof.
  unfold normal_logpdf. rewrite ln_exp.
  rewrite ln_sqrt_half by (pose proof PI_RGT_0; lra).
  replace (mu - mu) with 0 by lra.
  replace (- 0 ^ 2 / (2 * exp l ^ 2)) with 0; [lra|].
  unfold Rdiv. simpl. lra.
Qed.

Lemma row_log_density_at_mean (r log_std : list R) :
  length r = length log_std ->
  row_log_density r (map exp log_std) r = peak_log_density log_std.
Proof.
  unfold row_log_density, peak_log_density.
  revert log_std; induction r as [|mu r IH]; intros [|l ls] H; simpl in *;
    try discriminate; auto.
  rewrite normal_logpdf_at_mean. f_equal. apply IH. congruence.
Qed.

Lemma proba_distribution_stores (self0 : instance) (mean : tensor R)
  (log_std : list R) (deterministic : bool) (g : rng)
  (act : Tensor) (self : instance) :
  class_of self0 = DiagGaussianDistribution_cls ->
  mean_matches mean log_std ->
  DiagGaussianDistribution_proba_distribution self0 mean (T1 log_std)
    deterministic g = Ok (act, self) ->
  self = set_distribution self0
           (TNormal (Normal.mk mean (action_std mean log_std))).
Proof.
  intros Hc Hm H. rewrite DiagGaussian_proba_distribution_eq in H by assumption.
  cbv zeta in H. destruct deterministic.
  - unfold mode in H. cbn [set_distribution class_of] in H. rewrite Hc in H.
    cbn in H. now inversion H.
  - unfold sample in H. cbn [set_distribution class_of] in H. rewrite Hc in H.
    cbn in H. destruct (Normal.rsample _ _); cbn in H; now inversion H.
Qed.

(** C6: after [proba_distribution], [mode()] returns the mean, and
    [log_prob(mode())] is the peak log-density of the Gaussian, the sum over
    the action dimensions of [-(log_std_d + 0.5 * log(2 * pi))], one such
    scalar per batch row (a single scalar for an unbatched mean). *)
Theorem DiagGaussian_log_prob_of_mode :
  forall (self0 : instance) (mean : tensor R) (log_std : list R)
         (deterministic : bool) (g : rng) (act : Tensor) (self : instance),
    class_of self0 = DiagGaussianDistribution_cls ->
    mean_matches mean log_std ->
    DiagGaussianDistribution_proba_distribution self0 mean (T1 log_std)
      deterministic g = Ok (act, self) ->
    mode self = Ok (FloatTensor mean, self)
    /\ DiagGaussianDistribution_mode self = Ok (mean, self)
    /\ DiagGaussianDistribution_log_prob self mean =
         Ok (match mean with
             | T2 rows => T1 (map (fun _ => peak_log_density log_std) rows)
             | _ => T0 (peak_log_density log_std)
             end).
Proof.
  intros self0 mean log_std det g act self Hc Hm H.
  apply proba_distribution_stores in H; [|assumption|assumption]. subst self.
  split; [|split].
  - unfold mode. cbn [set_distribution class_of]. now rewrite Hc.
  - reflexivity.
  - pose proof (like_action_std mean log_std Hm) as Hl.
    destruct mean as [x|mu|rows]; simpl in Hm; try contradiction.
    + erewrite DiagGaussian_log_prob_T1;
        [|reflexivity|reflexivity|reflexivity|reflexivity|exact Hl].
      now rewrite row_log_density_at_mean.
    + erewrite DiagGaussian_log_prob_T2;
        [|reflexivity|reflexivity|reflexivity|apply same_rows_refl|exact Hl].
      do 2 f_equal. induction Hm as [|r rows Hr _ IH]; simpl; auto.
      rewrite row_log_density_at_mean by assumption. f_equal. apply IH.
      simpl in Hl. now inversion Hl.
Qed.

Lemma DiagGaussian_log_prob_of_mode_witness :
  DiagGaussianDistribution_log_prob
    (set_distribution (DiagGaussianDistribution_init 2)
       (TNormal (Normal.mk (T2 [[0; 1]; [2; 3]])
                   (action_std (T2 [[0; 1]; [2; 3]]) [0; 0]))))
    (T2 [[0; 1]; [2; 3]])
  = Ok (T1 [peak_log_density [0; 0]; peak_log_density [0; 0]]).
Proof.
  apply (DiagGaussian_log_prob_of_mode (DiagGaussianDistribution_init 2)
           (T2 [[0; 1]; [2; 3]]) [0; 0] true zero_draws
           (FloatTensor (T2 [[0; 1]; [2; 3]]))).
  - reflexivity.
  - simpl. repeat constructor.
  - rewrite DiagGaussian_proba_distribution_eq by (simpl; repeat constructor).
    reflexivity.
Defined.

(** ** SquashedDiagGaussianDistribution *)

Lemma cosh_pos (x : R) : 0 < cosh x.
Proof. unfold cosh. pose proof (exp_pos x). pose proof (exp_pos (- x)). lra. Qed.

Lemma tanh_bounds (x : R) : -1 < tanh x < 1.
Proof.
  pose proof (cosh_pos x) as Hc.
  assert (Hs : - cosh x < sinh x < cosh x).
  { unfold sinh, cosh. pose proof (exp_pos x). pose proof (exp_pos (- x)). lra. }
  assert (E : tanh x * cosh x = sinh x) by (unfold tanh; field; lra).
  split; apply Rmult_lt_reg_r with (r := cosh x); try assumption; lra.
Qed.

Lemma tforall_ttanh (g : tensor R) : tforall (fun a => -1 <= a <= 1) (ttanh g).
Proof.
  assert (B : forall x, -1 <= tanh x <= 1)
    by (intros x; pose proof (tanh_bounds x); lra).
  assert (E : forall v, Forall (fun a => -1 <= a <= 1) (map tanh v)).
  { induction v; simpl; constructor; auto. }
  destruct g as [x|v|m]; simpl; auto.
  induction m; simpl; constructor; auto.
Qed.

Lemma Squashed_mode_parameterized (self : instance) (n : Normal.t) :
  distribution self = Some (TNormal n) ->
  SquashedDiagGaussianDistribution_mode self =
    Ok (ttanh (Normal.mean n), set_gaussian_action self (Normal.mean n)).
Proof.
  intros Hd. unfold SquashedDiagGaussianDistribution_mode.
  now rewrite (normal_of_parameterized _ _ Hd).
Qed.

Lemma Squashed_sample_parameterized (self : instance) (n : Normal.t) (g : rng)
  (x : tensor R) :
  distribution self = Some (TNormal n) ->
  Normal.rsample n (randn g) = Ok x ->
  SquashedDiagGaussianDistribution_sample self g =
    Ok (ttanh x, set_gaussian_action self x).
Proof.
  intros Hd Hx. unfold SquashedDiagGaussianDistribution_sample.
  rewrite (normal_of_parameterized _ _ Hd); cbn [bind]. now rewrite Hx.
Qed.

(** [proba_distribution] returns on either Gaussian head, and leaves it
    parameterized by the mean and by [exp(log_std)]. *)
Lemma proba_distribution_parameterizes (self0 : instance) (mean : tensor R)
  (log_std : list R) (deterministic : bool) (g : rng) :
  class_of self0 = DiagGaussianDistribution_cls
  \/ class_of self0 = SquashedDiagGaussianDistribution_cls ->
  mean_matches mean log_std ->
  exists act self,
    DiagGaussianDistribution_proba_distribution self0 mean (T1 log_std)
      deterministic g = Ok (act, self)
    /\ SquashedDiagGaussianDistribution_proba_distribution self0 mean
         (T1 log_std) deterministic g = Ok (act, self)
    /\ class_of self = class_of self0
    /\ gaussian_parameterized self
         (Normal.mk mean (action_std mean log_std)).
Proof.
  intros Hc Hm.
  pose proof (like_action_std mean log_std Hm) as Hl.
  set (n := Normal.mk mean (action_std mean log_std)) in *.
  set (self1 := set_distribution self0 (TNormal n)).
  assert (E : exists act self,
             (if deterministic then mode self1 else sample self1 g)
             = Ok (act, self)
             /\ class_of self = class_of self0
             /\ gaussian_parameterized self n).
  { destruct (rsample_like n (randn g) Hl) as [x [Hx _]].
    destruct Hc as [Hc|Hc], deterministic.
    - exists (FloatTensor mean), self1. repeat split; auto.
      unfold mode. cbn [self1 set_distribution class_of]. now rewrite Hc.
    - exists (FloatTensor x), self1. repeat split; auto.
      unfold sample. cbn [self1 set_distribution class_of]. rewrite Hc. cbn.
      fold n. now rewrite Hx.
    - exists (FloatTensor (ttanh mean)), (set_gaussian_action self1 mean).
      repeat split; auto.
      unfold mode. cbn [self1 set_distribution class_of]. now rewrite Hc.
    - exists (FloatTensor (ttanh x)), (set_gaussian_action self1 x).
      repeat split; auto.
      unfold sample. cbn [self1 set_distribution class_of]. rewrite Hc. cbn.
      fold n. now rewrite Hx. }
  destruct E as [act [self [E [Hcls Hp]]]].
  exists act, self.
  assert (E' : DiagGaussianDistribution_proba_distribution self0 mean
                 (T1 log_std) deterministic g = Ok (act, self)).
  { rewrite DiagGaussian_proba_distribution_eq by assumption. exact E. }
  repeat split; auto; try apply Hp.
  unfold SquashedDiagGaussianDistribution_proba_distribution. now rewrite E'.
Qed.

(** X18: on a parameterized SquashedDiagonalGaussian, [sample()] returns the
    tanh of the reparameterized Gaussian draw and [mode()] the tanh of the
    mean; no component of the returned action lies outside [-1, 1]; and the
    instance returned by either call caches the pre-tanh value in
    [gaussian_action]. *)
Theorem Squashed_sample_and_mode_cache :
  forall (self : instance) (n : Normal.t) (g : rng),
    class_of self = SquashedDiagGaussianDistribution_cls ->
    gaussian_parameterized self n ->
    (exists x,
        Normal.rsample n (randn g) = Ok x
        /\ SquashedDiagGaussianDistribution_sample self g =
             Ok (ttanh x, set_gaussian_action self x)
        /\ sample self g = Ok (FloatTensor (ttanh x), set_gaussian_action self x)
        /\ gaussian_action (set_gaussian_action self x) = Some x
        /\ tforall (fun a => -1 <= a <= 1) (ttanh x))
    /\ SquashedDiagGaussianDistribution_mode self =
         Ok (ttanh (Normal.mean n), set_gaussian_action self (Normal.mean n))
    /\ mode self =
         Ok (FloatTensor (ttanh (Normal.mean n)),
             set_gaussian_action self (Normal.mean n))
    /\ gaussian_action (set_gaussian_action self (Normal.mean n)) =
         Some (Normal.mean n)
    /\ tforall (fun a => -1 <= a <= 1) (ttanh (Normal.mean n)).
Proof.
  intros self n g Hc [Hd Hl].
  pose proof (Squashed_mode_parameterized self n Hd) as Hmode.
  split; [|split; [|split; [|split]]].
  - destruct (rsample_like n (randn g) Hl) as [x [Hx _]].
    pose proof (Squashed_sample_parameterized self n g x Hd Hx) as Hsample.
    exists x. split; [exact Hx|]. split; [exact Hsample|].
    split; [|split; [reflexivity|apply tforall_ttanh]].
    unfold sample. rewrite Hc; cbn. now rewrite Hsample.
  - exact Hmode.
  - unfold mode. rewrite Hc; cbn. now rewrite Hmode.
  - reflexivity.
  - apply tforall_ttanh.
Qed.

Lemma Squashed_sample_and_mode_cache_witness :
  mode (unit_head SquashedDiagGaussianDistribution_cls (T1 [0; 2]) (T1 [1; 1]))
  = Ok (FloatTensor (ttanh (T1 [0; 2])),
        set_gaussian_action
          (unit_head SquashedDiagGaussianDistribution_cls (T1 [0; 2]) (T1 [1; 1]))
          (T1 [0; 2])).
Proof.
  apply (Squashed_sample_and_mode_cache
           (unit_head SquashedDiagGaussianDistribution_cls (T1 [0; 2]) (T1 [1; 1]))
           (Normal.mk (T1 [0; 2]) (T1 [1; 1])) zero_draws).
  - reflexivity.
  - split; reflexivity.
Defined.

(** *** The squashed log-density *)

Lemma shape_eqb_refl (s : list nat) : shape_eqb s s = true.
Proof. unfold shape_eqb. destruct (list_eq_dec Nat.eq_dec s s); congruence. Qed.

Lemma correction_rows (eps : R) (acts : list (list R)) :
  sum_dim1 (tlog (tmap (fun a => 1 - a ^ 2 + eps) (T2 acts))) =
    Ok (T1 (map (squash_correction eps) acts)).
Proof.
  unfold tlog; cbn [tmap sum_dim1]. do 2 f_equal.
  rewrite !map_map. apply map_ext. intros r. unfold squash_correction.
  now rewrite map_map.
Qed.

Lemma Squashed_log_prob_rows (self : instance) (n : Normal.t)
  (mus sigmas gs acts : list (list R)) :
  distribution self = Some (TNormal n) ->
  Normal.loc n = T2 mus -> Normal.scale n = T2 sigmas ->
  same_rows gs mus -> same_rows mus sigmas ->
  length acts = length gs ->
  SquashedDiagGaussianDistribution_log_prob self (T2 acts) (Some (T2 gs)) =
    Ok (T1 (map2 Rminus (map3 row_log_density mus sigmas gs)
                        (map (squash_correction (epsilon self)) acts))).
Proof.
  intros Hd Hl Hs H1 H2 H3.
  unfold SquashedDiagGaussianDistribution_log_prob,
    SquashedDiagGaussianDistribution_log_prob_autograd.
  cbn [bind].
  rewrite (DiagGaussian_log_prob_T2 self n mus sigmas gs) by assumption.
  cbn [bind]. rewrite correction_rows. cbn [bind].
  assert (Hlen : length (map3 row_log_density mus sigmas gs) =
                 length (map (squash_correction (epsilon self)) acts)).
  { rewrite length_map, H3. now apply map3_rows_length. }
  unfold isub, tsub. rewrite broadcast_T1 by exact Hlen. cbn [bind shape].
  rewrite map2_length by exact Hlen. now rewrite shape_eqb_refl.
Qed.

(** C2: for a parameterized SquashedDiagonalGaussian and a batched action
    [a = tanh(g)] with known pre-squash value [g], [log_prob(a, g)] is, row
    by row, the diagonal-Gaussian log-density of [g] summed over the action
    dimensions minus the sum over the action dimensions of
    [log(1 - a^2 + epsilon)]; [epsilon] defaults to 1e-6. *)
Theorem Squashed_log_prob_formula :
  forall (self : instance) (n : Normal.t) (mus sigmas gs : list (list R)),
    gaussian_parameterized self n ->
    Normal.loc n = T2 mus -> Normal.scale n = T2 sigmas ->
    same_rows gs mus ->
    SquashedDiagGaussianDistribution_log_prob self (ttanh (T2 gs)) (Some (T2 gs)) =
      Ok (T1 (map2 Rminus
                (map3 row_log_density mus sigmas gs)
                (map (squash_correction (epsilon self)) (map (map tanh) gs))))
    /\ length (map2 Rminus
                 (map3 row_log_density mus sigmas gs)
                 (map (squash_correction (epsilon self)) (map (map tanh) gs)))
       = length gs
    /\ forall d, epsilon (SquashedDiagGaussianDistribution_init d None)
                 = 1 / 1000000.
Proof.
  intros self n mus sigmas gs [Hd Hl] Hmu Hsg Hg.
  rewrite Hmu, Hsg in Hl; simpl in Hl.
  split; [|split].
  - apply Squashed_log_prob_rows with (n := n); auto. now rewrite length_map.
  - rewrite map2_length; [now apply map3_rows_length|].
    rewrite !length_map. now apply map3_rows_length.
  - reflexivity.
Qed.

Lemma Squashed_log_prob_formula_witness :
  SquashedDiagGaussianDistribution_log_prob
    (unit_head SquashedDiagGaussianDistribution_cls (T2 [[0]; [1]]) (T2 [[1]; [2]]))
    (ttanh (T2 [[3]; [4]])) (Some (T2 [[3]; [4]]))
  = Ok (T1 (map2 Rminus
              (map3 row_log_density [[0]; [1]] [[1]; [2]] [[3]; [4]])
              (map (squash_correction default_epsilon)
                   (map (map tanh) [[3]; [4]])))).
Proof.
  apply (Squashed_log_prob_formula
           (unit_head SquashedDiagGaussianDistribution_cls
              (T2 [[0]; [1]]) (T2 [[1]; [2]]))
           (Normal.mk (T2 [[0]; [1]]) (T2 [[1]; [2]]))
           [[0]; [1]] [[1]; [2]] [[3]; [4]]).
  - split; [reflexivity|]. simpl. repeat constructor.
  - reflexivity.
  - reflexivity.
  - repeat constructor.
Defined.

(** C10: the rank-1 action that [DiagGaussianDistribution.log_prob] answers
    with one scalar is an error for [SquashedDiagGaussianDistribution.log_prob]:
    its correction sums over axis 1, which a rank-1 tensor does not have, so
    the call raises [IndexError], with or without a supplied pre-image, and
    never returns a value (nor does it on a rank-0 action). *)
Theorem Squashed_log_prob_rank1_raises :
  forall (self : instance) (n : Normal.t) (l s v : list R),
    distribution self = Some (TNormal n) ->
    Normal.loc n = T1 l -> Normal.scale n = T1 s ->
    length v = length l -> length l = length s ->
    DiagGaussianDistribution_log_prob self (T1 v) =
      Ok (T0 (row_log_density l s v))
    /\ SquashedDiagGaussianDistribution_log_prob self (T1 v) None =
         Raise IndexError
    /\ (forall gv, length gv = length l ->
          SquashedDiagGaussianDistribution_log_prob self (T1 v) (Some (T1 gv)) =
            Raise IndexError)
    /\ (forall ga, raises (SquashedDiagGaussianDistribution_log_prob self (T1 v) ga))
    /\ (forall x ga,
          raises (SquashedDiagGaussianDistribution_log_prob self (T0 x) ga)).
Proof.
  intros self n l s v Hd Hl Hs H1 H2.
  split; [now apply DiagGaussian_log_prob_T1 with (n := n)|].
  split; [|split; [|split]].
  - unfold SquashedDiagGaussianDistribution_log_prob,
      SquashedDiagGaussianDistribution_log_prob_autograd.
    cbn [bind from_numpy_arctanh]. unfold tarctanh. cbn [tmap].
    rewrite (DiagGaussian_log_prob_T1 self n l s (map arctanh v))
      by (rewrite ?length_map; assumption).
    reflexivity.
  - intros gv Hgv.
    unfold SquashedDiagGaussianDistribution_log_prob,
      SquashedDiagGaussianDistribution_log_prob_autograd.
    cbn [bind from_numpy_arctanh].
    rewrite (DiagGaussian_log_prob_T1 self n l s gv) by assumption.
    reflexivity.
  - intros ga.
    unfold SquashedDiagGaussianDistribution_log_prob,
      SquashedDiagGaussianDistribution_log_prob_autograd.
    destruct ga as [g|]; cbn [bind from_numpy_arctanh];
      destruct (DiagGaussianDistribution_log_prob self _) as [lp|e];
      cbn; eexists; reflexivity.
  - intros x ga.
    unfold SquashedDiagGaussianDistribution_log_prob,
      SquashedDiagGaussianDistribution_log_prob_autograd.
    destruct ga as [g|]; cbn [bind from_numpy_arctanh];
      [|eexists; reflexivity].
    destruct (DiagGaussianDistribution_log_prob self _) as [lp|e];
      cbn; eexists; reflexivity.
Qed.

Lemma Squashed_log_prob_rank1_raises_witness :
  SquashedDiagGaussianDistribution_log_prob
    (unit_head SquashedDiagGaussianDistribution_cls (T1 [0; 0]) (T1 [1; 1]))
    (T1 [0; 0]) None = Raise IndexError.
Proof.
  apply (Squashed_log_prob_rank1_raises
           (unit_head SquashedDiagGaussianDistribution_cls (T1 [0; 0]) (T1 [1; 1]))
           (Normal.mk (T1 [0; 0]) (T1 [1; 1])) [0; 0] [1; 1] [0; 0]);
    reflexivity.
Defined.

(** *** Entropy *)

(** C1: [entropy()] on a parameterized squashed head does not signal that
    it is unsupported. The squashed class defines no [entropy]; the call
    runs [DiagGaussianDistribution.entropy] and returns a value, the entropy
    of the Gaussian under the squashing, [0.5 + 0.5 * log(2 * pi) +
    log(scale)], where [scale] is [1 * exp(log_std)]. *)
Lemma Squashed_entropy_returns :
  exists act self,
    SquashedDiagGaussianDistribution_proba_distribution
      (SquashedDiagGaussianDistribution_init 1 None) (T2 [[0]]) (T1 [0])
      true zero_draws = Ok (act, self)
    /\ class_of self = SquashedDiagGaussianDistribution_cls
    /\ defines SquashedDiagGaussianDistribution_cls M_entropy = false
    /\ resolve (class_of self) M_entropy = Some DiagGaussianDistribution_cls
    /\ entropy self = Ok (T2 [[0.5 + 0.5 * ln (2 * PI) + ln (1 * exp 0)]])
    /\ ~ raises (entropy self).
Proof.
  do 2 eexists. split; [reflexivity|]. split; [reflexivity|].
  split; [reflexivity|]. split; [reflexivity|]. split; [reflexivity|].
  intros [e He]. discriminate He.
Qed.

(** ** kl_div *)

(** C9: no class but [Distribution] defines [kl_div], so on an instance of
    any variant the call runs the abstract body and raises
    [NotImplementedError]; no value is ever returned. *)
Theorem kl_div_not_implemented :
  forall (self other : instance),
    (forall c, defines c M_kl_div = true <-> c = Distribution_cls)
    /\ resolve (class_of self) M_kl_div = Some Distribution_cls
    /\ kl_div self other = Raise (NotImplementedError EmptyString).
Proof.
  intros self other. split; [|split].
  - intros c; split; [destruct c; simpl; congruence | intros ->; reflexivity].
  - destruct (class_of self); reflexivity.
  - unfold kl_div. destruct (class_of self); reflexivity.
Qed.

(** ** The factory *)

Lemma append_assoc (a b c : string) :
  ((a ++ b) ++ c = a ++ (b ++ c))%string.
Proof. induction a as [|ch a IH]; simpl; [reflexivity | now rewrite IH]. Qed.

(** C5: [make_proba_distribution] returns a [DiagGaussianDistribution] of
    [action_dim = d] for a Box vector space of dimension [d], a
    [CategoricalDistribution] of [action_dim = n] for a Discrete space of
    cardinality [n], and for any other kind of space raises, when called, a
    [NotImplementedError] whose message contains the type of the space. *)
Theorem make_proba_distribution_dispatch :
  (forall d,
      make_proba_distribution (Box [d]) = Ok (DiagGaussianDistribution_init d)
      /\ class_of (DiagGaussianDistribution_init d) = DiagGaussianDistribution_cls
      /\ action_dim (DiagGaussianDistribution_init d) = d)
  /\ (forall n,
         make_proba_distribution (Discrete n) = Ok (CategoricalDistribution_init n)
         /\ class_of (CategoricalDistribution_init n) = CategoricalDistribution_cls
         /\ action_dim (CategoricalDistribution_init n) = n)
  /\ (forall s,
         match s with
         | Box _ | Discrete _ => True
         | _ =>
             make_proba_distribution s =
               Raise (NotImplementedError (unsupported_message s))
             /\ occurs_in (type_repr s) (unsupported_message s)
         end).
Proof.
  split; [|split].
  - intros d. repeat split.
  - intros n. repeat split.
  - intros s.
    assert (H : occurs_in (type_repr s) (unsupported_message s)).
    { unfold occurs_in, unsupported_message.
      exists unsupported_prefix, ("." ++ unsupported_suffix)%string.
      rewrite append_assoc. f_equal. apply append_assoc. }
    destruct s; auto.
Qed.

(** ** CategoricalDistribution *)

Lemma argmax_cons (x y : R) (t : list R) :
  argmax (x :: y :: t) =
    if Rlt_dec x (nth (argmax (y :: t)) (y :: t) 0)
    then S (argmax (y :: t)) else 0%nat.
Proof. reflexivity. Qed.

Lemma argmax_first_max (l : list R) : l <> [] -> first_max (argmax l) l.
Proof.
  induction l as [|x t IH]; [congruence|]. intros _.
  destruct t as [|y t].
  - split; [simpl; lia|]. split; simpl; intros j Hj; [|lia].
    destruct j; [lra | lia].
  - destruct IH as [Hlt [Hmax Hfirst]]; [discriminate|].
    rewrite argmax_cons. set (k := argmax (y :: t)) in *.
    destruct (Rlt_dec x (nth k (y :: t) 0)) as [Hx|Hx].
    + repeat split.
      * simpl in *; lia.
      * intros [|j] Hj.
        -- change (x <= nth k (y :: t) 0). lra.
        -- change (nth j (y :: t) 0 <= nth k (y :: t) 0).
           apply Hmax. simpl in *; lia.
      * intros [|j] Hj.
        -- change (x < nth k (y :: t) 0). lra.
        -- change (nth j (y :: t) 0 < nth k (y :: t) 0).
           apply Hfirst. lia.
    + repeat split.
      * simpl; lia.
      * intros [|j] Hj.
        -- change (x <= x). lra.
        -- change (nth j (y :: t) 0 <= x).
           apply Rle_trans with (r2 := nth k (y :: t) 0);
             [apply Hmax; simpl in *; lia | lra].
      * intros j Hj; lia.
Qed.

(** A strictly increasing map moves no maximum. *)
Lemma argmax_map (f : R -> R) (l : list R) :
  (forall x y, x < y -> f x < f y) -> argmax (map f l) = argmax l.
Proof.
  intros Hf. induction l as [|x t IH]; [reflexivity|].
  destruct t as [|y t]; [reflexivity|].
  change (map f (x :: y :: t)) with (f x :: f y :: map f t).
  rewrite !argmax_cons.
  change (f y :: map f t) with (map f (y :: t)). rewrite IH.
  set (k := argmax (y :: t)).
  assert (Hk : (k < length (y :: t))%nat)
    by (apply argmax_first_max; discriminate).
  rewrite (nth_indep (map f (y :: t)) 0 (f 0)) by now rewrite length_map.
  rewrite map_nth.
  destruct (Rlt_dec x (nth k (y :: t) 0)) as [H1|H1],
           (Rlt_dec (f x) (f (nth k (y :: t) 0))) as [H2|H2]; auto.
  - exfalso. apply H2. now apply Hf.
  - exfalso. destruct (Rle_lt_or_eq_dec _ _ (Rnot_lt_le _ _ H1)) as [H3|H3].
    + apply Hf in H3. lra.
    + rewrite H3 in H2. lra.
Qed.

Lemma Rsum_exp_pos (l : list R) : l <> [] -> 0 < Rsum (map exp l).
Proof.
  assert (H : forall t, 0 <= Rsum (map exp t)).
  { induction t as [|x t IH]; simpl; [lra|]. pose proof (exp_pos x). lra. }
  destruct l as [|x t]; [congruence|]. intros _. simpl.
  pose proof (exp_pos x). pose proof (H t). lra.
Qed.

Lemma normalise_nonempty (r : list R) : r <> [] -> Categorical.normalise r <> [].
Proof. destruct r; [congruence|discriminate]. Qed.

(** The probabilities are in the order of the logits. *)
Lemma argmax_probs (r : list R) :
  r <> [] ->
  argmax (Categorical.softmax (Categorical.normalise r)) = argmax r.
Proof.
  intros Hr. unfold Categorical.softmax.
  pose proof (Rsum_exp_pos _ (normalise_nonempty r Hr)) as Hs.
  set (s := Rsum (map exp (Categorical.normalise r))) in *.
  rewrite argmax_map.
  - unfold Categorical.normalise. apply argmax_map. intros x y Hxy. lra.
  - intros x y Hxy. apply exp_increasing in Hxy.
    unfold Rdiv. apply Rmult_lt_compat_r; [now apply Rinv_0_lt_compat | exact Hxy].
Qed.

Lemma softmax_length (r : list R) :
  length (Categorical.softmax r) = length r.
Proof. unfold Categorical.softmax. now rewrite length_map. Qed.

Lemma normalise_length (r : list R) :
  length (Categorical.normalise r) = length r.
Proof. unfold Categorical.normalise. now rewrite length_map. Qed.

Lemma Categorical_entropy_rows (raw : list (list R)) :
  Categorical.entropy (Categorical.mk (T2 (map Categorical.normalise raw))) =
    Ok (T1 (map row_entropy raw)).
Proof.
  unfold Categorical.entropy, Categorical.probs, tmul.
  cbn [Categorical.logits]. rewrite broadcast_T2.
  - cbn [bind sum_last tmap]. do 2 f_equal.
    induction raw as [|r raw IH]; simpl; auto. now rewrite IH.
  - induction raw as [|r raw IH]; simpl; constructor; auto.
    now rewrite softmax_length.
Qed.

Lemma uniform3_entropy : row_entropy [0; 0; 0] = ln 3.
Proof.
  unfold row_entropy, Categorical.softmax, Categorical.normalise,
    Categorical.logsumexp. simpl.
  rewrite exp_0. replace (1 + (1 + (1 + 0))) with 3 by lra.
  replace (0 - ln 3) with (- ln 3) by lra.
  rewrite exp_Ropp, exp_ln by lra. field.
Qed.

Lemma categorical_of_parameterized (self : instance) (c : Categorical.t) :
  distribution self = Some (TCategorical c) -> categorical_of self = Ok c.
Proof. intros H. unfold categorical_of. now rewrite H. Qed.

Lemma argmax_dim1_probs (raw : list (list R)) :
  Forall (fun r => r <> []) raw ->
  argmax_dim1 (T2 (map Categorical.softmax (map Categorical.normalise raw))) =
    Ok (T1 (map argmax raw)).
Proof.
  intros H. unfold argmax_dim1.
  assert (E : forallb (fun r => negb (length r =? 0)%nat)
                (map Categorical.softmax (map Categorical.normalise raw)) = true).
  { induction H as [|r raw Hr _ IH]; simpl; auto.
    rewrite IH, softmax_length, normalise_length.
    destruct r; [congruence|reflexivity]. }
  rewrite E. clear E. do 2 f_equal.
  induction H as [|r raw Hr _ IH]; cbn [map]; auto.
  now rewrite argmax_probs, IH.
Qed.

Lemma argmax_rows_first_max (raw : list (list R)) :
  Forall (fun r => r <> []) raw ->
  Forall (fun r =>
            first_max (argmax r)
              (Categorical.softmax (Categorical.normalise r))
            /\ first_max (argmax r) r) raw.
Proof.
  induction 1 as [|r raw Hr _ IH]; constructor; auto.
  split; [|now apply argmax_first_max].
  rewrite <- (argmax_probs r Hr). apply argmax_first_max.
  destruct r; [congruence|discriminate].
Qed.

Lemma Categorical_mode_parameterized (self : instance) (raw : list (list R)) :
  distribution self =
    Some (TCategorical (Categorical.mk (T2 (map Categorical.normalise raw)))) ->
  Forall (fun r => r <> []) raw ->
  CategoricalDistribution_mode self = Ok (T1 (map argmax raw), self).
Proof.
  intros Hd Hne. unfold CategoricalDistribution_mode.
  rewrite (categorical_of_parameterized _ _ Hd); cbn [bind].
  unfold Categorical.probs; cbn [Categorical.logits].
  now rewrite argmax_dim1_probs.
Qed.

Lemma mode_Categorical (self : instance) :
  class_of self = CategoricalDistribution_cls ->
  mode self = as_long (CategoricalDistribution_mode self).
Proof. intros Hc. unfold mode. now rewrite Hc. Qed.

(** [proba_distribution] returns on a batch of non-empty rows of logits and
    stores the [Categorical] built from them. *)
Lemma Categorical_proba_distribution_parameterizes (self0 : instance)
  (raw : list (list R)) (deterministic : bool) (g : rng) :
  class_of self0 = CategoricalDistribution_cls ->
  Forall (fun r => r <> []) raw ->
  exists act self c,
    CategoricalDistribution_proba_distribution self0 (T2 raw) deterministic g
    = Ok (act, self)
    /\ class_of self = CategoricalDistribution_cls
    /\ distribution self = Some (TCategorical c)
    /\ Categorical.init (T2 raw) = Ok c.
Proof.
  intros Hc Hne. unfold CategoricalDistribution_proba_distribution.
  cbn [Categorical.init bind].
  set (c := Categorical.mk (T2 (map Categorical.normalise raw))).
  set (self1 := set_distribution self0 (TCategorical c)).
  destruct deterministic.
  - exists (LongTensor (T1 (map argmax raw))), self1, c. repeat split; auto.
    rewrite mode_Categorical by exact Hc.
    now rewrite (Categorical_mode_parameterized self1 raw eq_refl Hne).
  - eexists; exists self1, c. repeat split; auto.
    unfold sample. cbn [self1 set_distribution class_of]. rewrite Hc. cbn.
    reflexivity.
Qed.

(** C8: on a CategoricalDistribution parameterized by a batch of logits,
    [mode()] returns for each row the index of the largest probability,
    which is the index of the largest logit (the lowest one among equals),
    and returns it again when called again; [entropy()] is the Shannon
    entropy of each row, [log(3)] for the uniform logits [0, 0, 0]. *)
Theorem Categorical_mode_and_entropy :
  forall (self : instance) (c : Categorical.t) (raw : list (list R)),
    class_of self = CategoricalDistribution_cls ->
    distribution self = Some (TCategorical c) ->
    Categorical.init (T2 raw) = Ok c ->
    Forall (fun r => r <> []) raw ->
    mode self = Ok (LongTensor (T1 (map argmax raw)), self)
    /\ CategoricalDistribution_mode self = Ok (T1 (map argmax raw), self)
    /\ Forall (fun r =>
                 first_max (argmax r)
                   (Categorical.softmax (Categorical.normalise r))
                 /\ first_max (argmax r) r) raw
    /\ entropy self = Ok (T1 (map row_entropy raw))
    /\ (raw = [[0; 0; 0]] -> entropy self = Ok (T1 [ln 3]))
    /\ (forall (self1 : instance) (c1 : Categorical.t),
           class_of self1 = CategoricalDistribution_cls ->
           distribution self1 = Some (TCategorical c1) ->
           Categorical.init (T1 [0; 0; 0]) = Ok c1 ->
           entropy self1 = Ok (T0 (ln 3))).
Proof.
  intros self c raw Hc Hd Hi Hne. simpl in Hi. inversion Hi as [Ec]; clear Hi.
  assert (Hmode : CategoricalDistribution_mode self =
                  Ok (T1 (map argmax raw), self)).
  { apply Categorical_mode_parameterized; [now rewrite Hd, Ec | assumption]. }
  assert (Hent : entropy self = Ok (T1 (map row_entropy raw))).
  { unfold entropy. rewrite Hc; cbn. unfold CategoricalDistribution_entropy.
    rewrite (categorical_of_parameterized _ _ Hd); cbn [bind]. subst c.
    apply Categorical_entropy_rows. }
  split; [|split; [|split; [|split; [|split]]]].
  - rewrite mode_Categorical by exact Hc. now rewrite Hmode.
  - exact Hmode.
  - now apply argmax_rows_first_max.
  - exact Hent.
  - intros ->. rewrite Hent. simpl. now rewrite uniform3_entropy.
  - intros self1 c1 Hc1 Hd1 Hi1. simpl in Hi1. inversion Hi1 as [Ec1].
    unfold entropy. rewrite Hc1; cbn. unfold CategoricalDistribution_entropy.
    rewrite (categorical_of_parameterized _ _ Hd1); cbn [bind]. subst c1.
    unfold Categorical.entropy, Categorical.probs, tmul.
    cbn [Categorical.logits]. rewrite broadcast_T1 by now rewrite softmax_length.
    cbn [bind sum_last tmap]. do 2 f_equal. apply uniform3_entropy.
Qed.

Lemma Categorical_mode_and_entropy_witness :
  mode uniform3_head = Ok (LongTensor (T1 (map argmax [[0; 0; 0]])), uniform3_head)
  /\ entropy uniform3_head = Ok (T1 (map row_entropy [[0; 0; 0]])).
Proof.
  assert (H : Forall (fun r : list R => r <> []) [[0; 0; 0]])
    by (repeat constructor; discriminate).
  split;
    apply (Categorical_mode_and_entropy uniform3_head
             (Categorical.mk (T2 (map Categorical.normalise [[0; 0; 0]])))
             [[0; 0; 0]] eq_refl eq_refl eq_refl H).
Defined.

(** ** Further properties of the Gaussian heads *)

(** What the instance holds once [proba_distribution] has returned. *)
Lemma proba_distribution_state (self0 : instance) (mean : tensor R)
  (log_std : list R) (deterministic : bool) (g : rng)
  (act : Tensor) (self : instance) :
  class_of self0 = DiagGaussianDistribution_cls
  \/ class_of self0 = SquashedDiagGaussianDistribution_cls ->
  mean_matches mean log_std ->
  DiagGaussianDistribution_proba_distribution self0 mean (T1 log_std)
    deterministic g = Ok (act, self) ->
  distribution self = Some (TNormal (Normal.mk mean (action_std mean log_std)))
  /\ class_of self = class_of self0
  /\ action_dim self = action_dim self0
  /\ epsilon self = epsilon self0.
Proof.
  intros Hc Hm H. rewrite DiagGaussian_proba_distribution_eq in H by assumption.
  cbv zeta in H.
  set (n := Normal.mk mean (action_std mean log_std)) in *.
  set (self1 := set_distribution self0 (TNormal n)) in *.
  assert (Hn : normal_of self1 = Ok n) by reflexivity.
  destruct Hc as [Hc|Hc], deterministic.
  - unfold mode in H. cbn [self1 set_distribution class_of] in H.
    rewrite Hc in H. cbn in H. inversion H. repeat split.
  - unfold sample in H. cbn [self1 set_distribution class_of] in H.
    rewrite Hc in H. cbn in H.
    destruct (Normal.rsample _ _); cbn in H; inversion H. repeat split.
  - unfold mode in H. cbn [self1 set_distribution class_of] in H.
    rewrite Hc in H. cbn in H. inversion H. repeat split.
  - unfold sample in H. cbn [self1 set_distribution class_of] in H.
    rewrite Hc in H. cbn in H.
    destruct (Normal.rsample _ _); cbn in H; inversion H. repeat split.
Qed.

Lemma normal_logpdf_le_peak (mu l x : R) :
  normal_logpdf mu (exp l) x <= - (l + 0.5 * ln (2 * PI)).
Proof.
  rewrite <- (normal_logpdf_at_mean mu l). unfold normal_logpdf.
  pose proof (exp_pos l) as He.
  assert (H : - (x - mu) ^ 2 / (2 * exp l ^ 2) <= 0).
  { unfold Rdiv. rewrite <- Ropp_mult_distr_l.
    assert (0 <= (x - mu) ^ 2 * / (2 * exp l ^ 2)); [|lra].
    apply Rmult_le_pos; [apply pow2_ge_0|].
    apply Rlt_le, Rinv_0_lt_compat. nra. }
  replace (mu - mu) with 0 by lra.
  replace (- 0 ^ 2 / (2 * exp l ^ 2)) with 0; [lra|].
  unfold Rdiv. simpl. lra.
Qed.

Lemma row_log_density_le_peak (mu log_std x : list R) :
  length x = length mu -> length mu = length log_std ->
  row_log_density mu (map exp log_std) x <= peak_log_density log_std.
Proof.
  unfold row_log_density, peak_log_density.
  revert log_std x; induction mu as [|m mu IH]; intros [|l ls] [|y x] H1 H2;
    simpl in *; try discriminate; try lra.
  pose proof (normal_logpdf_le_peak m l y).
  assert (Rsum (map3 normal_logpdf mu (map exp ls) x)
          <= Rsum (map (fun l0 => - (l0 + 0.5 * ln (2 * PI))) ls))
    by (apply IH; congruence).
  lra.
Qed.

Lemma rows_log_density_le_peak (log_std : list R) (rows xs : list (list R)) :
  Forall (fun r => length r = length log_std) rows ->
  same_rows xs rows ->
  Forall (fun lp => lp <= peak_log_density log_std)
    (map3 row_log_density rows (map (fun _ => map exp log_std) rows) xs).
Proof.
  intros Hm Hx; revert Hm.
  induction Hx as [|x r xs rows Hxr _ IH]; intros Hm; simpl; constructor.
  - inversion_clear Hm. now apply row_log_density_le_peak.
  - apply IH. now inversion Hm.
Qed.

(** X1: the mode is the most likely action: on a head parameterized by a mean
    and a log_std, no action of the shape of the mean has a log-density above
    the one of the mode. *)
Theorem DiagGaussian_log_prob_le_mode :
  forall (self0 : instance) (mean : tensor R) (log_std : list R)
         (deterministic : bool) (g : rng) (act : Tensor) (self : instance)
         (action : tensor R),
    class_of self0 = DiagGaussianDistribution_cls ->
    mean_matches mean log_std ->
    DiagGaussianDistribution_proba_distribution self0 mean (T1 log_std)
      deterministic g = Ok (act, self) ->
    like action mean ->
    exists lp,
      DiagGaussianDistribution_log_prob self action = Ok lp
      /\ tforall (fun x => x <= peak_log_density log_std) lp
      /\ (forall lp_mode,
             DiagGaussianDistribution_log_prob self mean = Ok lp_mode ->
             tforall (fun x => x = peak_log_density log_std) lp_mode).
Proof.
  intros self0 mean log_std det g act self action Hc Hm H Ha.
  destruct (proba_distribution_state self0 mean log_std det g act self
              (or_introl Hc) Hm H) as [Hd _].
  pose proof (like_action_std mean log_std Hm) as Hl.
  destruct mean as [x|mu|rows]; simpl in Hm; try contradiction;
    destruct action as [y|v|xs]; simpl in Ha; try contradiction.
  - exists (T0 (row_log_density mu (map exp log_std) v)). split; [|split].
    + now apply DiagGaussian_log_prob_T1
        with (n := Normal.mk (T1 mu) (action_std (T1 mu) log_std)).
    + simpl. now apply row_log_density_le_peak.
    + intros lp_mode Hlp.
      erewrite DiagGaussian_log_prob_T1 in Hlp;
        [|exact Hd|reflexivity|reflexivity|reflexivity|exact Hl].
      inversion Hlp. simpl. now apply row_log_density_at_mean.
  - exists (T1 (map3 row_log_density rows
                  (map (fun _ => map exp log_std) rows) xs)).
    split; [|split].
    + now apply DiagGaussian_log_prob_T2
        with (n := Normal.mk (T2 rows) (action_std (T2 rows) log_std)).
    + simpl. now apply rows_log_density_le_peak.
    + intros lp_mode Hlp.
      erewrite DiagGaussian_log_prob_T2 in Hlp;
        [|exact Hd|reflexivity|reflexivity|apply same_rows_refl|exact Hl].
      inversion Hlp. simpl. clear - Hm.
      induction Hm as [|r rows Hr _ IH]; simpl; constructor; auto.
      now apply row_log_density_at_mean.
Qed.

Lemma DiagGaussian_log_prob_le_mode_witness :
  exists lp,
    DiagGaussianDistribution_log_prob
      (set_distribution (DiagGaussianDistribution_init 1)
         (TNormal (Normal.mk (T2 [[0]]) (action_std (T2 [[0]]) [0]))))
      (T2 [[5]]) = Ok lp
    /\ tforall (fun x => x <= peak_log_density [0]) lp
    /\ (forall lp_mode,
           DiagGaussianDistribution_log_prob
             (set_distribution (DiagGaussianDistribution_init 1)
                (TNormal (Normal.mk (T2 [[0]]) (action_std (T2 [[0]]) [0]))))
             (T2 [[0]]) = Ok lp_mode ->
           tforall (fun x => x = peak_log_density [0]) lp_mode).
Proof.
  apply (DiagGaussian_log_prob_le_mode (DiagGaussianDistribution_init 1)
           (T2 [[0]]) [0] true zero_draws (FloatTensor (T2 [[0]]))).
  - reflexivity.
  - simpl. repeat constructor.
  - rewrite DiagGaussian_proba_distribution_eq by (simpl; repeat constructor).
    reflexivity.
  - simpl. repeat constructor.
Defined.

(** X2: the entropy of a Gaussian head, Diagonal or Squashed, is returned entry
    by entry, one value per batch row and action dimension and not summed
    over the dimensions, and it depends on [log_std] alone:
    [0.5 + 0.5 * log(2 * pi) + log_std_d]. *)
Theorem Gaussian_entropy_entries :
  forall (self0 : instance) (mean : tensor R) (log_std : list R)
         (deterministic : bool) (g : rng) (act : Tensor) (self : instance),
    class_of self0 = DiagGaussianDistribution_cls
    \/ class_of self0 = SquashedDiagGaussianDistribution_cls ->
    mean_matches mean log_std ->
    DiagGaussianDistribution_proba_distribution self0 mean (T1 log_std)
      deterministic g = Ok (act, self) ->
    entropy self =
      Ok (match mean with
          | T2 rows =>
              T2 (map (fun _ =>
                         map (fun l => 0.5 + 0.5 * ln (2 * PI) + l) log_std)
                      rows)
          | _ => T1 (map (fun l => 0.5 + 0.5 * ln (2 * PI) + l) log_std)
          end).
Proof.
  intros self0 mean log_std det g act self Hc Hm H.
  destruct (proba_distribution_state self0 mean log_std det g act self Hc Hm H)
    as [Hd [Hcls _]].
  assert (E : entropy self = DiagGaussianDistribution_entropy self).
  { unfold entropy. rewrite Hcls. destruct Hc as [Hc|Hc]; now rewrite Hc. }
  rewrite E. unfold DiagGaussianDistribution_entropy.
  rewrite (normal_of_parameterized _ _ Hd); cbn [bind].
  unfold Normal.entropy, tlog; cbn [Normal.scale]. f_equal.
  assert (Erow : map (fun x => 0.5 + 0.5 * ln (2 * PI) + x)
                   (map ln (map exp log_std))
                 = map (fun l => 0.5 + 0.5 * ln (2 * PI) + l) log_std).
  { rewrite !map_map. apply map_ext. intros l. now rewrite ln_exp. }
  destruct mean as [x|mu|rows]; simpl in Hm; try contradiction;
    unfold action_std; cbn [tmap].
  - now rewrite Erow.
  - f_equal. rewrite !map_map. apply map_ext. intros _.
    rewrite <- Erow. now rewrite !map_map.
Qed.

Lemma Gaussian_entropy_entries_witness :
  entropy
    (set_gaussian_action
       (set_distribution (SquashedDiagGaussianDistribution_init 2 None)
          (TNormal (Normal.mk (T2 [[0; 1]]) (action_std (T2 [[0; 1]]) [0; 3]))))
       (T2 [[0; 1]]))
  = Ok (T2 (map (fun _ => map (fun l => 0.5 + 0.5 * ln (2 * PI) + l) [0; 3])
                [[0; 1]])).
Proof.
  apply (Gaussian_entropy_entries (SquashedDiagGaussianDistribution_init 2 None)
           (T2 [[0; 1]]) [0; 3] true zero_draws
           (FloatTensor (ttanh (T2 [[0; 1]])))).
  - right. reflexivity.
  - simpl. repeat constructor.
  - rewrite DiagGaussian_proba_distribution_eq by (simpl; repeat constructor).
    reflexivity.
Defined.

(** ** Before and between parameterizations *)

(** X3: until [proba_distribution] has run, [self.distribution] is [None] and
    the queries of a variant fail: [mode], [sample], [entropy] and the
    [log_prob] of the Diagonal Gaussian and categorical heads with
    [AttributeError]. The squashed [log_prob] fails with [AttributeError]
    too when the pre-squash value is supplied; without it the action is
    first taken through numpy, which raises [RuntimeError] on an action that
    requires grad and [TypeError] on a rank-0 action, and only then is the
    missing distribution met. *)
Theorem query_before_parameterization :
  forall (self : instance),
    distribution self = None ->
    class_of self <> Distribution_cls ->
    mode self = Raise AttributeError
    /\ (forall g, sample self g = Raise AttributeError)
    /\ entropy self = Raise AttributeError
    /\ (class_of self <> SquashedDiagGaussianDistribution_cls ->
        forall action, log_prob self action None = Raise AttributeError)
    /\ (forall action requires_grad ga,
          SquashedDiagGaussianDistribution_log_prob_autograd self action
            requires_grad ga
          = Raise match ga with
                  | Some _ => AttributeError
                  | None =>
                      if requires_grad then RuntimeError
                      else match action with
                           | T0 _ => TypeError
                           | _ => AttributeError
                           end
                  end)
    /\ (class_of self = SquashedDiagGaussianDistribution_cls ->
        forall action ga, raises (log_prob self action ga)).
Proof.
  intros self Hd Hc.
  assert (Hn : normal_of self = Raise AttributeError)
    by (unfold normal_of; now rewrite Hd).
  assert (Hk : categorical_of self = Raise AttributeError)
    by (unfold categorical_of; now rewrite Hd).
  assert (Hlp : forall a, DiagGaussianDistribution_log_prob self a
                          = Raise AttributeError).
  { intros a. unfold DiagGaussianDistribution_log_prob. now rewrite Hn. }
  assert (Hsq : forall a rg ga,
             SquashedDiagGaussianDistribution_log_prob_autograd self a rg ga
             = Raise match ga with
                     | Some _ => AttributeError
                     | None =>
                         if rg then RuntimeError
                         else match a with
                              | T0 _ => TypeError
                              | _ => AttributeError
                              end
                     end).
  { intros a rg ga. unfold SquashedDiagGaussianDistribution_log_prob_autograd.
    destruct ga as [g|]; cbn [bind]; [now rewrite Hlp|].
    destruct rg; [reflexivity|]. destruct a; cbn [from_numpy_arctanh bind];
      try reflexivity; now rewrite Hlp. }
  split; [|split; [|split; [|split; [|split]]]].
  - unfold mode, DiagGaussianDistribution_mode,
      SquashedDiagGaussianDistribution_mode, CategoricalDistribution_mode.
    rewrite Hn, Hk. destruct (class_of self); try reflexivity; congruence.
  - intros g. unfold sample, DiagGaussianDistribution_sample,
      SquashedDiagGaussianDistribution_sample, CategoricalDistribution_sample.
    rewrite Hn, Hk. destruct (class_of self); try reflexivity; congruence.
  - unfold entropy, DiagGaussianDistribution_entropy,
      CategoricalDistribution_entropy.
    rewrite Hn, Hk. destruct (class_of self); try reflexivity; congruence.
  - intros Hs action. unfold log_prob, CategoricalDistribution_log_prob.
    rewrite Hk. destruct (class_of self); cbn; try congruence; auto.
  - exact Hsq.
  - intros Hs action ga. unfold log_prob. rewrite Hs. cbn.
    unfold SquashedDiagGaussianDistribution_log_prob. rewrite Hsq.
    eexists; reflexivity.
Qed.

Lemma query_before_parameterization_witness :
  entropy (SquashedDiagGaussianDistribution_init 3 None) = Raise AttributeError.
Proof.
  apply (query_before_parameterization
           (SquashedDiagGaussianDistribution_init 3 None)).
  - reflexivity.
  - discriminate.
Defined.

(** X4: the factory returns an instance for a Box vector and for a Discrete
    space and for nothing else; the instance is a Diagonal Gaussian or a
    Categorical head, never the squashed one, and is not yet
    parameterized. *)
Theorem make_proba_distribution_result :
  forall (s : space),
    (raises (make_proba_distribution s) <->
     ~ ((exists d, s = Box [d]) \/ (exists n, s = Discrete n)))
    /\ (forall sh, length sh <> 1%nat ->
          make_proba_distribution (Box sh) =
            Raise (AssertionError "Error: the action space must be a vector"))
    /\ (forall self,
          make_proba_distribution s = Ok self ->
          (class_of self = DiagGaussianDistribution_cls
           \/ class_of self = CategoricalDistribution_cls)
          /\ distribution self = None
          /\ self = unparameterized self).
Proof.
  intros s. split; [|split].
  - split.
    + intros [e He] [[d Hd]|[n Hn]]; subst s; discriminate He.
    + intros Hn. destruct s as [[|d [|d' sh]]|n| | |]; simpl;
        try (eexists; reflexivity).
      * exfalso. apply Hn. left. now exists d.
      * exfalso. apply Hn. right. now exists n.
  - intros [|d [|d' sh]] Hsh; simpl in *; try reflexivity. congruence.
  - intros self H.
    destruct s as [[|d [|d' sh]]|n| | |]; simpl in H; try discriminate H;
      inversion H; repeat split; auto.
Qed.

(** X5: [kl_div] is the only method of the abstract class that the variants
    leave to it: every other call on a variant runs a body of the variant's
    own class or of its Gaussian base, never one that raises
    [NotImplementedError]. *)
Theorem only_kl_div_is_abstract :
  forall (c : class) (m : method),
    c <> Distribution_cls ->
    exists k,
      resolve c m = Some k /\ (k = Distribution_cls <-> m = M_kl_div).
Proof.
  intros c m Hc.
  destruct c, m; try congruence; eexists; (split; [reflexivity|]);
    split; intros H; try reflexivity; discriminate H.
Qed.

Lemma only_kl_div_is_abstract_witness :
  exists k,
    resolve SquashedDiagGaussianDistribution_cls M_entropy = Some k
    /\ (k = Distribution_cls <-> M_entropy = M_kl_div).
Proof.
  apply (only_kl_div_is_abstract SquashedDiagGaussianDistribution_cls M_entropy).
  discriminate.
Defined.

(** X6: parameterizing a squashed head again discards what the previous pass
    left: the stored distribution and the cached pre-squash value do not
    influence the outcome. *)
Theorem Squashed_proba_distribution_forgets :
  forall (self : instance) (mean_actions log_std : tensor R)
         (deterministic : bool) (g : rng),
    class_of self = SquashedDiagGaussianDistribution_cls ->
    SquashedDiagGaussianDistribution_proba_distribution self mean_actions
      log_std deterministic g
    = SquashedDiagGaussianDistribution_proba_distribution
        (unparameterized self) mean_actions log_std deterministic g.
Proof.
  intros self mean log_std det g Hc.
  unfold SquashedDiagGaussianDistribution_proba_distribution,
    DiagGaussianDistribution_proba_distribution.
  destruct (tmul (ones_like mean) (texp log_std)) as [std|e]; [|reflexivity].
  cbn [bind]. destruct (Normal.init mean std) as [n|e]; [|reflexivity].
  cbn [bind]. destruct det.
  - unfold mode. cbn [set_distribution unparameterized class_of].
    rewrite Hc. reflexivity.
  - unfold sample. cbn [set_distribution unparameterized class_of].
    rewrite Hc. cbn.
    destruct (Normal.rsample n (randn g)); reflexivity.
Qed.

Lemma Squashed_proba_distribution_forgets_witness :
  SquashedDiagGaussianDistribution_proba_distribution
    (unit_head SquashedDiagGaussianDistribution_cls (T2 [[7]]) (T2 [[1]]))
    (T2 [[0]]) (T1 [0]) true zero_draws
  = SquashedDiagGaussianDistribution_proba_distribution
      (unparameterized
         (unit_head SquashedDiagGaussianDistribution_cls (T2 [[7]]) (T2 [[1]])))
      (T2 [[0]]) (T1 [0]) true zero_draws.
Proof.
  apply (Squashed_proba_distribution_forgets
           (unit_head SquashedDiagGaussianDistribution_cls (T2 [[7]]) (T2 [[1]]))).
  reflexivity.
Defined.

(** ** log_prob_from_params on the Gaussian heads *)

Lemma sampled_row_eq (r es log_std : list R) :
  map2 Rplus r (map2 Rmult es (map exp log_std)) = sampled_row r es log_std.
Proof.
  unfold sampled_row.
  revert es log_std; induction r as [|m r IH]; intros [|e es] [|l ls];
    simpl; auto.
  now rewrite IH.
Qed.

Lemma sampled_rows_eq (randn : nat -> nat -> R) (log_std : list R)
  (rows : list (list R)) (k : nat) :
  Forall (fun r => length r = length log_std) rows ->
  map2 (map2 Rplus) rows
    (map2 (map2 Rmult)
       (map2 (fun i r => map (randn i) (seq 0 (length r)))
             (seq k (length rows)) rows)
       (map (fun _ => map exp log_std) rows))
  = map2 (fun i mu =>
            sampled_row mu (map (randn i) (seq 0 (length log_std))) log_std)
         (seq k (length rows)) rows.
Proof.
  intros H; revert k; induction H as [|r rows Hr _ IH]; intros k; simpl; auto.
  rewrite IH, sampled_row_eq, Hr. reflexivity.
Qed.

Lemma sampled_rows_same (randn : nat -> nat -> R) (log_std : list R)
  (rows : list (list R)) (k : nat) :
  Forall (fun r => length r = length log_std) rows ->
  same_rows
    (map2 (fun i mu =>
             sampled_row mu (map (randn i) (seq 0 (length log_std))) log_std)
          (seq k (length rows)) rows)
    rows.
Proof.
  intros H; revert k; induction H as [|r rows Hr _ IH]; intros k; simpl;
    constructor; [|apply IH].
  unfold sampled_row. rewrite map3_length.
  - now symmetry.
  - exact Hr.
  - now rewrite length_map, length_seq.
Qed.

Lemma rsample_rows (randn : nat -> nat -> R) (log_std : list R)
  (rows : list (list R)) :
  Forall (fun r => length r = length log_std) rows ->
  Normal.rsample (Normal.mk (T2 rows) (action_std (T2 rows) log_std)) randn =
    Ok (T2 (map2 (fun i mu =>
                    sampled_row mu (map (randn i) (seq 0 (length log_std)))
                      log_std)
                 (seq 0 (length rows)) rows)).
Proof.
  intros H. pose proof (like_action_std (T2 rows) log_std H) as Hl.
  simpl in Hl. unfold Normal.rsample, tmul, tadd, action_std.
  cbn [Normal.loc Normal.scale Normal.randn_like].
  rewrite broadcast_T2
    by (eapply same_rows_trans; [apply randn_rows_same | exact Hl]).
  cbn [bind]. rewrite broadcast_T2.
  - now rewrite sampled_rows_eq.
  - apply same_rows_sym. eapply same_rows_trans; [apply same_rows_map2_l|].
    + eapply same_rows_trans; [apply randn_rows_same | exact Hl].
    + apply randn_rows_same.
Qed.

Lemma normal_logpdf_sampled (m e l : R) :
  normal_logpdf m (exp l) (m + e * exp l) = - e ^ 2 / 2 - l - 0.5 * ln (2 * PI).
Proof.
  unfold normal_logpdf. rewrite ln_exp.
  rewrite ln_sqrt_half by (pose proof PI_RGT_0; lra).
  pose proof (exp_pos l) as He.
  replace (- (m + e * exp l - m) ^ 2 / (2 * exp l ^ 2)) with (- e ^ 2 / 2);
    [reflexivity|].
  field. lra.
Qed.

Lemma row_log_density_sampled (mu es log_std : list R) :
  length mu = length log_std -> length es = length log_std ->
  row_log_density mu (map exp log_std) (sampled_row mu es log_std)
  = noise_log_density es log_std.
Proof.
  unfold row_log_density, sampled_row, noise_log_density.
  revert es log_std; induction mu as [|m mu IH]; intros [|e es] [|l ls] H1 H2;
    simpl in *; try discriminate; auto.
  rewrite normal_logpdf_sampled. f_equal. apply IH; congruence.
Qed.

Lemma rows_log_density_sampled (randn : nat -> nat -> R) (log_std : list R)
  (rows : list (list R)) (k : nat) :
  Forall (fun r => length r = length log_std) rows ->
  map3 row_log_density rows (map (fun _ => map exp log_std) rows)
    (map2 (fun i mu =>
             sampled_row mu (map (randn i) (seq 0 (length log_std))) log_std)
          (seq k (length rows)) rows)
  = map (fun i =>
           noise_log_density (map (randn i) (seq 0 (length log_std))) log_std)
        (seq k (length rows)).
Proof.
  intros H; revert k; induction H as [|r rows Hr _ IH]; intros k; simpl; auto.
  rewrite IH, row_log_density_sampled; auto.
  now rewrite length_map, length_seq.
Qed.

Lemma sample_DiagGaussian (self : instance) (g : rng) :
  class_of self = DiagGaussianDistribution_cls ->
  sample self g = as_float (DiagGaussianDistribution_sample self g).
Proof. intros Hc. unfold sample. now rewrite Hc. Qed.

Lemma sample_Squashed (self : instance) (g : rng) :
  class_of self = SquashedDiagGaussianDistribution_cls ->
  sample self g = as_float (SquashedDiagGaussianDistribution_sample self g).
Proof. intros Hc. unfold sample. now rewrite Hc. Qed.

(** X7: [log_prob_from_params] of the Diagonal Gaussian on a batch of means:
    the action is [mean + noise * exp(log_std)], and its log-density, one
    scalar per row, is a function of the noise and of [log_std] only, the
    sum over the dimensions of [-noise^2 / 2 - log_std_d - 0.5 * log(2 * pi)];
    the mean cancels. *)
Theorem DiagGaussian_log_prob_from_params_noise :
  forall (self0 : instance) (rows : list (list R)) (log_std : list R) (g : rng),
    class_of self0 = DiagGaussianDistribution_cls ->
    Forall (fun r => length r = length log_std) rows ->
    DiagGaussianDistribution_log_prob_from_params self0 (T2 rows) (T1 log_std) g
    = Ok (FloatTensor
            (T2 (map2 (fun i mu =>
                         sampled_row mu (noise_row g i (length log_std)) log_std)
                      (seq 0 (length rows)) rows)),
          T1 (map (fun i =>
                     noise_log_density (noise_row g i (length log_std)) log_std)
                  (seq 0 (length rows))),
          set_distribution self0
            (TNormal (Normal.mk (T2 rows) (action_std (T2 rows) log_std)))).
Proof.
  intros self0 rows log_std g Hc Hm.
  unfold DiagGaussianDistribution_log_prob_from_params, proba_distribution.
  rewrite Hc. cbn [resolve mro mro_fuel base find defines].
  rewrite DiagGaussian_proba_distribution_eq by exact Hm. cbv zeta.
  set (n := Normal.mk (T2 rows) (action_std (T2 rows) log_std)).
  set (self1 := set_distribution self0 (TNormal n)).
  assert (Hc1 : class_of self1 = DiagGaussianDistribution_cls) by exact Hc.
  rewrite (sample_DiagGaussian self1 g Hc1).
  unfold DiagGaussianDistribution_sample.
  rewrite (normal_of_parameterized self1 n eq_refl). cbn [bind].
  unfold n at 1. rewrite rsample_rows by exact Hm.
  cbn [bind as_float]. unfold log_prob. rewrite Hc1.
  cbn [resolve mro mro_fuel base find defines float_of].
  rewrite (DiagGaussian_log_prob_T2 self1 n rows
             (map (fun _ => map exp log_std) rows));
    try reflexivity.
  - cbn [bind]. unfold noise_row. now rewrite rows_log_density_sampled.
  - now apply sampled_rows_same.
  - exact (like_action_std (T2 rows) log_std Hm).
Qed.

Lemma DiagGaussian_log_prob_from_params_noise_witness :
  DiagGaussianDistribution_log_prob_from_params
    (DiagGaussianDistribution_init 2) (T2 [[1; 2]; [3; 4]]) (T1 [0; 0])
    zero_draws
  = Ok (FloatTensor
          (T2 (map2 (fun i mu => sampled_row mu (noise_row zero_draws i 2) [0; 0])
                    (seq 0 2) [[1; 2]; [3; 4]])),
        T1 (map (fun i => noise_log_density (noise_row zero_draws i 2) [0; 0])
                (seq 0 2)),
        set_distribution (DiagGaussianDistribution_init 2)
          (TNormal (Normal.mk (T2 [[1; 2]; [3; 4]])
                      (action_std (T2 [[1; 2]; [3; 4]]) [0; 0])))).
Proof.
  apply (DiagGaussian_log_prob_from_params_noise
           (DiagGaussianDistribution_init 2) [[1; 2]; [3; 4]] [0; 0] zero_draws).
  - reflexivity.
  - repeat constructor.
Defined.

Lemma log_prob_Squashed (self : instance) (action : Tensor)
  (ga : option (tensor R)) :
  class_of self = SquashedDiagGaussianDistribution_cls ->
  log_prob self action ga =
    SquashedDiagGaussianDistribution_log_prob self (float_of action) ga.
Proof. intros Hc. unfold log_prob. now rewrite Hc. Qed.

(** X8: [log_prob_from_params] of the squashed head on a batch of means: the
    action is the tanh of the Gaussian draw, the draw is left in
    [gaussian_action], and the log-density, one scalar per row, is the
    log-density of the draw (a function of the noise and of [log_std]) minus
    the correction of the squashed action. *)
Theorem Squashed_log_prob_from_params_cache :
  forall (self0 : instance) (rows : list (list R)) (log_std : list R) (g : rng),
    class_of self0 = SquashedDiagGaussianDistribution_cls ->
    Forall (fun r => length r = length log_std) rows ->
    let draw :=
      map2 (fun i mu => sampled_row mu (noise_row g i (length log_std)) log_std)
           (seq 0 (length rows)) rows in
    let self :=
      set_gaussian_action
        (set_distribution self0
           (TNormal (Normal.mk (T2 rows) (action_std (T2 rows) log_std))))
        (T2 draw) in
    let lp :=
      map2 Rminus
        (map (fun i =>
                noise_log_density (noise_row g i (length log_std)) log_std)
             (seq 0 (length rows)))
        (map (squash_correction (epsilon self0)) (map (map tanh) draw)) in
    SquashedDiagGaussianDistribution_log_prob_from_params self0 (T2 rows)
      (T1 log_std) g
    = Ok (FloatTensor (ttanh (T2 draw)), T1 lp, self)
    /\ gaussian_action self = Some (T2 draw)
    /\ length lp = length rows.
Proof.
  intros self0 rows log_std g Hc Hm draw self lp.
  set (n := Normal.mk (T2 rows) (action_std (T2 rows) log_std)).
  set (self1 := set_distribution self0 (TNormal n)).
  assert (Hc1 : class_of self1 = SquashedDiagGaussianDistribution_cls)
    by exact Hc.
  assert (Hdraw : Normal.rsample n (randn g) = Ok (T2 draw))
    by (unfold n; now rewrite rsample_rows).
  assert (Hlp : SquashedDiagGaussianDistribution_log_prob self
                  (ttanh (T2 draw)) (Some (T2 draw)) = Ok (T1 lp)).
  { unfold ttanh; cbn [tmap].
    rewrite (Squashed_log_prob_rows self n rows
               (map (fun _ => map exp log_std) rows) draw
               (map (map tanh) draw)); try reflexivity.
    - unfold lp, draw, noise_row. now rewrite rows_log_density_sampled.
    - unfold draw, noise_row. now apply sampled_rows_same.
    - exact (like_action_std (T2 rows) log_std Hm).
    - now rewrite length_map. }
  split; [|split; [reflexivity|]].
  - unfold SquashedDiagGaussianDistribution_log_prob_from_params,
      proba_distribution.
    rewrite Hc. cbn [resolve mro mro_fuel base find defines].
    unfold SquashedDiagGaussianDistribution_proba_distribution.
    rewrite DiagGaussian_proba_distribution_eq by exact Hm. cbv zeta.
    fold n. fold self1.
    rewrite (sample_Squashed self1 g Hc1).
    rewrite (Squashed_sample_parameterized self1 n g (T2 draw) eq_refl Hdraw).
    cbn [bind as_float].
    change (set_gaussian_action self1 (T2 draw)) with self.
    rewrite (log_prob_Squashed self _ _ Hc). cbn [float_of].
    change (gaussian_action self) with (Some (T2 draw)).
    rewrite Hlp. reflexivity.
  - unfold lp. rewrite map2_length; rewrite !length_map, length_seq; auto.
    unfold draw. apply same_rows_length.
    apply same_rows_sym. unfold noise_row. now apply sampled_rows_same.
Qed.

Lemma Squashed_log_prob_from_params_cache_witness :
  gaussian_action
    (set_gaussian_action
       (set_distribution (SquashedDiagGaussianDistribution_init 1 None)
          (TNormal (Normal.mk (T2 [[2]]) (action_std (T2 [[2]]) [0]))))
       (T2 (map2 (fun i mu => sampled_row mu (noise_row zero_draws i 1) [0])
                 (seq 0 1) [[2]])))
  = Some (T2 (map2 (fun i mu => sampled_row mu (noise_row zero_draws i 1) [0])
                   (seq 0 1) [[2]])).
Proof.
  apply (Squashed_log_prob_from_params_cache
           (SquashedDiagGaussianDistribution_init 1 None) [[2]] [0] zero_draws).
  - reflexivity.
  - repeat constructor.
Defined.

(** ** The correction of the squashed log-density *)

Lemma ln_monotone (x y : R) : 0 < x -> x <= y -> ln x <= ln y.
Proof.
  intros Hx [H| ->]; [|lra]. apply Rlt_le. now apply ln_increasing.
Qed.

Lemma squash_correction_bounds (eps : R) (row : list R) :
  0 < eps ->
  Forall (fun a => -1 <= a <= 1) row ->
  INR (length row) * ln eps <= squash_correction eps row
  <= INR (length row) * ln (1 + eps).
Proof.
  intros He H. unfold squash_correction.
  induction H as [|a row Ha _ IH].
  - simpl. lra.
  - cbn [map Rsum fold_right length]. rewrite S_INR.
    fold (Rsum (map (fun a0 => ln (1 - a0 ^ 2 + eps)) row)).
    assert (H1 : eps <= 1 - a ^ 2 + eps) by nra.
    assert (H2 : 1 - a ^ 2 + eps <= 1 + eps) by nra.
    pose proof (ln_monotone eps (1 - a ^ 2 + eps) He H1).
    pose proof (ln_monotone (1 - a ^ 2 + eps) (1 + eps) ltac:(lra) H2).
    lra.
Qed.

Lemma squash_correction_saturated (eps : R) (d : nat) :
  squash_correction eps (repeat 1 d) = INR d * ln eps.
Proof.
  unfold squash_correction. induction d as [|d IH].
  - simpl. lra.
  - cbn [repeat map Rsum fold_right]. rewrite S_INR.
    fold (Rsum (map (fun a => ln (1 - a ^ 2 + eps)) (repeat 1 d))).
    rewrite IH. replace (1 - 1 ^ 2 + eps) with eps by lra. lra.
Qed.

(** X9: the epsilon of the correction keeps it finite on the whole closed range
    of actions: with [epsilon > 0] (the default is) and every action entry
    in [-1, 1], saturated entries included, [log_prob] returns the Gaussian
    log-density minus a correction that lies, for a row of [d] entries,
    between [d * log(epsilon)] and [d * log(1 + epsilon)]; the lower end is
    the correction of a row saturated at 1. *)
Theorem Squashed_log_prob_correction_bounds :
  forall (self : instance) (n : Normal.t) (mus sigmas gs acts : list (list R)),
    gaussian_parameterized self n ->
    Normal.loc n = T2 mus -> Normal.scale n = T2 sigmas ->
    same_rows gs mus ->
    length acts = length gs ->
    0 < epsilon self ->
    Forall (Forall (fun a => -1 <= a <= 1)) acts ->
    (exists corr,
        SquashedDiagGaussianDistribution_log_prob self (T2 acts) (Some (T2 gs))
        = Ok (T1 (map2 Rminus (map3 row_log_density mus sigmas gs) corr))
        /\ Forall2 (fun c row =>
                      INR (length row) * ln (epsilon self) <= c
                      <= INR (length row) * ln (1 + epsilon self))
                   corr acts)
    /\ (forall d, squash_correction (epsilon self) (repeat 1 d)
                  = INR d * ln (epsilon self))
    /\ (forall d, 0 < epsilon (SquashedDiagGaussianDistribution_init d None)).
Proof.
  intros self n mus sigmas gs acts [Hd Hl] Hmu Hsg Hg Hlen He Ha.
  rewrite Hmu, Hsg in Hl; simpl in Hl.
  split; [|split].
  - exists (map (squash_correction (epsilon self)) acts). split.
    + now apply Squashed_log_prob_rows with (n := n).
    + clear - He Ha. induction Ha as [|row acts Hrow _ IH]; simpl; constructor.
      * now apply squash_correction_bounds.
      * exact IH.
  - intros d. apply squash_correction_saturated.
  - intros d. simpl. unfold default_epsilon. lra.
Qed.

Lemma Squashed_log_prob_correction_bounds_witness :
  exists corr,
    SquashedDiagGaussianDistribution_log_prob
      (unit_head SquashedDiagGaussianDistribution_cls (T2 [[0; 0]]) (T2 [[1; 1]]))
      (T2 [[1; -1]]) (Some (T2 [[9; -9]]))
    = Ok (T1 (map2 Rminus
                (map3 row_log_density [[0; 0]] [[1; 1]] [[9; -9]]) corr))
    /\ Forall2 (fun c row =>
                  INR (length row) * ln default_epsilon <= c
                  <= INR (length row) * ln (1 + default_epsilon))
               corr [[1; -1]].
Proof.
  apply (Squashed_log_prob_correction_bounds
           (unit_head SquashedDiagGaussianDistribution_cls
              (T2 [[0; 0]]) (T2 [[1; 1]]))
           (Normal.mk (T2 [[0; 0]]) (T2 [[1; 1]]))
           [[0; 0]] [[1; 1]] [[9; -9]] [[1; -1]]).
  - split; [reflexivity|]. simpl. repeat constructor.
  - reflexivity.
  - reflexivity.
  - repeat constructor.
  - reflexivity.
  - simpl. unfold default_epsilon. lra.
  - repeat constructor; lra.
Defined.

(** ** Shapes that do not match *)

Lemma bvec_mismatch {A B C : Type} (f : A -> B -> C) (u : list A) (v : list B) :
  length u <> length v -> length u <> 1%nat -> length v <> 1%nat ->
  bvec f u v = Raise RuntimeError.
Proof.
  intros H H1 H2. unfold bvec.
  destruct (Nat.eqb_spec (length u) (length v)) as [E|_]; [contradiction|].
  destruct u as [|x [|x' u]], v as [|y [|y' v]]; simpl in *;
    try reflexivity; congruence.
Qed.

Lemma bvec_single_r {A B C : Type} (f : A -> B -> C) (u : list A) (y : B) :
  length u <> 1%nat -> bvec f u [y] = Ok (map (fun a => f a y) u).
Proof.
  intros H. unfold bvec.
  destruct u as [|x [|x' u]]; simpl in *; try reflexivity; congruence.
Qed.

Lemma bvec_single_l {A B C : Type} (f : A -> B -> C) (x : A) (v : list B) :
  length v <> 1%nat -> bvec f [x] v = Ok (map (f x) v).
Proof.
  intros H. unfold bvec.
  destruct v as [|y [|y' v]]; simpl in *; try reflexivity; congruence.
Qed.

(** X10: an action whose width is not the one of the parameters (and neither
    width is 1) is not accepted: [log_prob] of the Diagonal Gaussian raises
    on a rank-1 action, and on a batch of as many rows as the parameters,
    and returns nothing. *)
Theorem DiagGaussian_log_prob_width_mismatch :
  forall (self : instance) (n : Normal.t),
    distribution self = Some (TNormal n) ->
    (forall l v,
        Normal.loc n = T1 l ->
        length v <> length l -> length v <> 1%nat -> length l <> 1%nat ->
        raises (DiagGaussianDistribution_log_prob self (T1 v)))
    /\ (forall mus x xs,
           Normal.loc n = T2 mus ->
           length (x :: xs) = length mus ->
           Forall (fun mu => length x <> length mu /\ length mu <> 1%nat) mus ->
           length x <> 1%nat ->
           raises (DiagGaussianDistribution_log_prob self (T2 (x :: xs)))).
Proof.
  intros self n Hd. split.
  - intros l v Hl H H1 H2. unfold DiagGaussianDistribution_log_prob.
    rewrite (normal_of_parameterized _ _ Hd); cbn [bind].
    unfold Normal.log_prob, tsub. rewrite Hl. cbn [broadcast].
    rewrite bvec_mismatch by assumption. eexists; reflexivity.
  - intros mus x xs Hl Hlen Hm Hx. unfold DiagGaussianDistribution_log_prob.
    rewrite (normal_of_parameterized _ _ Hd); cbn [bind].
    unfold Normal.log_prob, tsub. rewrite Hl. cbn [broadcast].
    unfold bmat. rewrite Hlen, Nat.eqb_refl.
    destruct mus as [|mu mus]; [discriminate Hlen|].
    inversion_clear Hm as [|? ? [Hxm Hmu] _].
    cbn [mapM2]. rewrite bvec_mismatch by assumption. eexists; reflexivity.
Qed.

Lemma DiagGaussian_log_prob_width_mismatch_witness :
  raises
    (DiagGaussianDistribution_log_prob
       (unit_head DiagGaussianDistribution_cls (T1 [0; 0; 0]) (T1 [1; 1; 1]))
       (T1 [0; 0])).
Proof.
  apply (DiagGaussian_log_prob_width_mismatch
           (unit_head DiagGaussianDistribution_cls (T1 [0; 0; 0]) (T1 [1; 1; 1]))
           (Normal.mk (T1 [0; 0; 0]) (T1 [1; 1; 1])) eq_refl)
    with (l := [0; 0; 0]); simpl; try reflexivity; lia.
Defined.

(** X11: a pre-squash value and an action of different batch sizes. When the
    supplied [gaussian_action] has the rows of the parameters and the action
    is a single row, the single correction is subtracted from every row
    without complaint; when the parameters and [gaussian_action] are a
    single row and the action has several, the in-place subtraction cannot
    widen its target and [log_prob] raises [RuntimeError]. *)
Theorem Squashed_log_prob_batch_mismatch :
  forall (self : instance) (n : Normal.t) (mus sigmas gs : list (list R)),
    gaussian_parameterized self n ->
    Normal.loc n = T2 mus -> Normal.scale n = T2 sigmas ->
    same_rows gs mus ->
    (forall a_row,
        length gs <> 1%nat ->
        SquashedDiagGaussianDistribution_log_prob self (T2 [a_row])
          (Some (T2 gs))
        = Ok (T1 (map (fun d => d - squash_correction (epsilon self) a_row)
                      (map3 row_log_density mus sigmas gs))))
    /\ (forall acts,
           length gs = 1%nat -> length acts <> 1%nat ->
           SquashedDiagGaussianDistribution_log_prob self (T2 acts)
             (Some (T2 gs))
           = Raise RuntimeError).
Proof.
  intros self n mus sigmas gs [Hd Hl] Hmu Hsg Hg.
  rewrite Hmu, Hsg in Hl; simpl in Hl.
  assert (Hlen : length (map3 row_log_density mus sigmas gs) = length gs)
    by now apply map3_rows_length.
  assert (Hbase : DiagGaussianDistribution_log_prob self (T2 gs) =
                  Ok (T1 (map3 row_log_density mus sigmas gs)))
    by now apply DiagGaussian_log_prob_T2 with (n := n).
  split.
  - intros a_row HB.
    unfold SquashedDiagGaussianDistribution_log_prob,
      SquashedDiagGaussianDistribution_log_prob_autograd.
    cbn [bind].
    rewrite Hbase; cbn [bind]. rewrite correction_rows; cbn [bind map].
    unfold isub, tsub. cbn [broadcast].
    rewrite bvec_single_r by congruence. cbn [bind shape].
    now rewrite length_map, shape_eqb_refl.
  - intros acts H1 HB.
    unfold SquashedDiagGaussianDistribution_log_prob,
      SquashedDiagGaussianDistribution_log_prob_autograd.
    cbn [bind].
    rewrite Hbase; cbn [bind]. rewrite correction_rows; cbn [bind].
    unfold isub, tsub. cbn [broadcast].
    destruct (map3 row_log_density mus sigmas gs) as [|d [|d' ds]] eqn:E;
      simpl in Hlen; try congruence.
    rewrite bvec_single_l by now rewrite length_map.
    cbn [bind shape length]. rewrite !length_map.
    unfold shape_eqb.
    destruct (list_eq_dec Nat.eq_dec [length acts] [1%nat]) as [E1|_];
      [congruence|reflexivity].
Qed.

Lemma Squashed_log_prob_batch_mismatch_witness :
  SquashedDiagGaussianDistribution_log_prob
    (unit_head SquashedDiagGaussianDistribution_cls (T2 [[0]]) (T2 [[1]]))
    (T2 [[0]; [0]]) (Some (T2 [[0]]))
  = Raise RuntimeError.
Proof.
  apply (Squashed_log_prob_batch_mismatch
           (unit_head SquashedDiagGaussianDistribution_cls (T2 [[0]]) (T2 [[1]]))
           (Normal.mk (T2 [[0]]) (T2 [[1]])) [[0]] [[1]] [[0]]).
  - split; [reflexivity|]. simpl. repeat constructor.
  - reflexivity.
  - reflexivity.
  - repeat constructor.
  - reflexivity.
  - simpl. lia.
Defined.

(** ** Further properties of the categorical head *)

Lemma Rsum_exp_shift (c : R) (r : list R) :
  Rsum (map exp (map (Rplus c) r)) = exp c * Rsum (map exp r).
Proof.
  induction r as [|x r IH]; simpl; [lra|]. rewrite IH, exp_plus. lra.
Qed.

Lemma normalise_shift (c : R) (r : list R) :
  Categorical.normalise (map (Rplus c) r) = Categorical.normalise r.
Proof.
  destruct r as [|x0 r0] eqn:E; [reflexivity|]. rewrite <- E.
  assert (Hr : r <> []) by (subst r; discriminate).
  unfold Categorical.normalise, Categorical.logsumexp.
  rewrite Rsum_exp_shift, ln_mult, ln_exp;
    [|apply exp_pos|now apply Rsum_exp_pos].
  rewrite map_map. apply map_ext. intros x. lra.
Qed.

Lemma normalise_rows_shift (cs : list R) (rows : list (list R)) :
  length cs = length rows ->
  map Categorical.normalise (map2 (fun c r => map (Rplus c) r) cs rows)
  = map Categorical.normalise rows.
Proof.
  revert rows; induction cs as [|c cs IH]; intros [|r rows] H; simpl in *;
    try discriminate; auto.
  rewrite normalise_shift, IH; auto.
Qed.

(** X12: logits are unnormalised: adding a constant to all of them, or to every
    logit of a batch row its own constant, changes nothing of what
    [proba_distribution] returns and stores. *)
Theorem Categorical_proba_distribution_shift :
  forall (self : instance) (cs : list R) (rows : list (list R))
         (deterministic : bool) (g : rng),
    length cs = length rows ->
    CategoricalDistribution_proba_distribution self
      (T2 (map2 (fun c r => map (Rplus c) r) cs rows)) deterministic g
    = CategoricalDistribution_proba_distribution self (T2 rows) deterministic g
    /\ forall (c : R) (logits : tensor R),
        CategoricalDistribution_proba_distribution self (tmap (Rplus c) logits)
          deterministic g
        = CategoricalDistribution_proba_distribution self logits deterministic g.
Proof.
  intros self cs rows det g H. split.
  - unfold CategoricalDistribution_proba_distribution. cbn [Categorical.init].
    now rewrite normalise_rows_shift.
  - intros c logits. unfold CategoricalDistribution_proba_distribution.
    destruct logits as [x|v|m]; cbn [tmap Categorical.init]; try reflexivity.
    + now rewrite normalise_shift.
    + replace (map Categorical.normalise (map (map (Rplus c)) m))
        with (map Categorical.normalise m); [reflexivity|].
      rewrite map_map. apply map_ext. intros r. now rewrite normalise_shift.
Qed.

Lemma Categorical_proba_distribution_shift_witness :
  CategoricalDistribution_proba_distribution (CategoricalDistribution_init 2)
    (T2 (map2 (fun c r => map (Rplus c) r) [5; -3] [[0; 1]; [2; 2]]))
    true zero_draws
  = CategoricalDistribution_proba_distribution (CategoricalDistribution_init 2)
      (T2 [[0; 1]; [2; 2]]) true zero_draws.
Proof.
  apply (Categorical_proba_distribution_shift (CategoricalDistribution_init 2)
           [5; -3] [[0; 1]; [2; 2]] true zero_draws).
  reflexivity.
Defined.

Lemma nth_normalise (r : list R) (i : nat) :
  (i < length r)%nat -> nth i (Categorical.normalise r) 0 = log_pmf r i.
Proof.
  intros H. unfold Categorical.normalise, log_pmf.
  rewrite (nth_indep _ 0 (0 - Categorical.logsumexp r))
    by now rewrite length_map.
  now rewrite (map_nth (fun x => x - Categorical.logsumexp r)).
Qed.

Lemma gather_in_range (row : list R) (i : nat) :
  (i < length row)%nat ->
  Categorical.gather (Z.of_nat i) row = Ok (nth i row 0).
Proof.
  intros H. unfold Categorical.gather.
  destruct (Z.ltb_spec (Z.of_nat i) 0) as [Hn|_]; [lia|].
  now rewrite Nat2Z.id, (nth_error_nth' row 0 H).
Qed.

Lemma gather_out_of_range (row : list R) (i : nat) :
  (length row <= i)%nat ->
  Categorical.gather (Z.of_nat i) row = Raise ValueError.
Proof.
  intros H. unfold Categorical.gather.
  destruct (Z.ltb_spec (Z.of_nat i) 0) as [Hn|_]; [reflexivity|].
  rewrite Nat2Z.id. apply nth_error_None in H. now rewrite H.
Qed.

Lemma gather_rows_in_range (idx : list nat) (raw : list (list R)) :
  Forall2 (fun i r => (i < length r)%nat) idx raw ->
  mapM (fun r => r)
    (map2 Categorical.gather (map Z.of_nat idx)
          (map Categorical.normalise raw))
  = Ok (map2 (fun i r => log_pmf r i) idx raw).
Proof.
  induction 1 as [|i r idx raw Hi _ IH]; simpl; auto.
  rewrite gather_in_range by now rewrite normalise_length.
  cbn [bind]. rewrite IH. cbn [bind]. now rewrite nth_normalise.
Qed.

Lemma gather_rows_out_of_range (idx : list nat) (raw : list (list R)) :
  length idx = length raw ->
  ~ Forall2 (fun i r => (i < length r)%nat) idx raw ->
  mapM (fun r => r)
    (map2 Categorical.gather (map Z.of_nat idx)
          (map Categorical.normalise raw))
  = Raise ValueError.
Proof.
  revert raw; induction idx as [|i idx IH]; intros [|r raw] Hlen Hn;
    simpl in *; try discriminate.
  - exfalso. apply Hn. constructor.
  - destruct (lt_dec i (length r)) as [Hi|Hi].
    + rewrite gather_in_range by now rewrite normalise_length.
      cbn [bind]. rewrite IH; [reflexivity|congruence|].
      intros HF. apply Hn. now constructor.
    + rewrite gather_out_of_range by (rewrite normalise_length; lia).
      reflexivity.
Qed.

Lemma exp_le_Rsum (r : list R) (i : nat) :
  (i < length r)%nat -> exp (nth i r 0) <= Rsum (map exp r).
Proof.
  assert (H0 : forall t, 0 <= Rsum (map exp t)).
  { induction t as [|x t IH]; simpl; [lra|]. pose proof (exp_pos x). lra. }
  revert i; induction r as [|x r IH]; intros i Hi; simpl in *; [lia|].
  destruct i as [|i].
  - pose proof (H0 r). lra.
  - pose proof (IH i ltac:(lia)). pose proof (exp_pos x). lra.
Qed.

Lemma log_pmf_nonpos (r : list R) (i : nat) :
  (i < length r)%nat -> log_pmf r i <= 0.
Proof.
  intros Hi. unfold log_pmf, Categorical.logsumexp.
  pose proof (exp_le_Rsum r i Hi) as H.
  pose proof (ln_monotone _ _ (exp_pos (nth i r 0)) H) as Hln.
  rewrite ln_exp in Hln. lra.
Qed.

Lemma log_pmf_le_mode (r : list R) (i : nat) :
  (i < length r)%nat -> log_pmf r i <= log_pmf r (argmax r).
Proof.
  intros Hi. unfold log_pmf.
  assert (Hr : r <> []) by (destruct r; [simpl in Hi; lia|discriminate]).
  destruct (argmax_first_max r Hr) as [_ [Hmax _]].
  pose proof (Hmax i Hi). lra.
Qed.

Lemma log_prob_Categorical (self : instance) (action : Tensor) :
  class_of self = CategoricalDistribution_cls ->
  log_prob self action None = CategoricalDistribution_log_prob self action.
Proof. intros Hc. unfold log_prob. now rewrite Hc. Qed.

Lemma Categorical_log_prob_indices (self : instance) (raw : list (list R))
  (idx : list nat) :
  distribution self =
    Some (TCategorical (Categorical.mk (T2 (map Categorical.normalise raw)))) ->
  length idx = length raw ->
  CategoricalDistribution_log_prob self (LongTensor (T1 idx)) =
    refused
      (let* w := mapM (fun r => r)
                   (map2 Categorical.gather (map Z.of_nat idx)
                         (map Categorical.normalise raw)) in
       Ok (T1 w)).
Proof.
  intros Hd Hlen. unfold CategoricalDistribution_log_prob.
  rewrite (categorical_of_parameterized _ _ Hd); cbn [bind long_of tmap].
  unfold Categorical.log_prob, Categorical.batch_rows.
  cbn [Categorical.logits broadcast].
  rewrite bvec_same by now rewrite !length_map.
  reflexivity.
Qed.

(** X13: [log_prob] of the categorical head on one index per batch row returns
    exactly when every index lies inside its row of logits, and raises
    otherwise. What it returns is, per row, the logit at the index minus the
    log-sum-exp of the row: never positive, and never above the value at the
    index [mode()] returns. *)
Theorem Categorical_log_prob_indices_spec :
  forall (self : instance) (c : Categorical.t) (raw : list (list R))
         (idx : list nat),
    class_of self = CategoricalDistribution_cls ->
    distribution self = Some (TCategorical c) ->
    Categorical.init (T2 raw) = Ok c ->
    length idx = length raw ->
    (Forall2 (fun i r => (i < length r)%nat) idx raw ->
     log_prob self (LongTensor (T1 idx)) None
     = Ok (T1 (map2 (fun i r => log_pmf r i) idx raw))
     /\ Forall (fun l => l <= 0) (map2 (fun i r => log_pmf r i) idx raw)
     /\ log_prob self (LongTensor (T1 (map argmax raw))) None
        = Ok (T1 (map (fun r => log_pmf r (argmax r)) raw))
     /\ Forall2 Rle (map2 (fun i r => log_pmf r i) idx raw)
                    (map (fun r => log_pmf r (argmax r)) raw))
    /\ (~ Forall2 (fun i r => (i < length r)%nat) idx raw ->
        raises (log_prob self (LongTensor (T1 idx)) None)).
Proof.
  intros self c raw idx Hc Hd Hi Hlen. simpl in Hi. inversion Hi as [Ec].
  rewrite <- Ec in Hd. clear Hi Ec c.
  split.
  - intros Hin.
    assert (Hne : Forall2 (fun i r => (i < length r)%nat) (map argmax raw) raw).
    { clear - Hin. induction Hin as [|i r idx raw Hi _ IH]; simpl;
        constructor; auto.
      apply argmax_first_max. destruct r; [simpl in Hi; lia|discriminate]. }
    split; [|split; [|split]].
    + rewrite (log_prob_Categorical self _ Hc).
      rewrite (Categorical_log_prob_indices self raw idx Hd Hlen).
      now rewrite gather_rows_in_range.
    + clear - Hin. induction Hin; simpl; constructor; auto.
      now apply log_pmf_nonpos.
    + rewrite (log_prob_Categorical self _ Hc).
      rewrite (Categorical_log_prob_indices self raw (map argmax raw) Hd)
        by now rewrite length_map.
      rewrite gather_rows_in_range by exact Hne. cbn [bind refused].
      do 2 f_equal.
      clear. induction raw as [|r raw IH]; simpl; auto. now rewrite IH.
    + clear - Hin. induction Hin; simpl; constructor; auto.
      now apply log_pmf_le_mode.
  - intros Hout. rewrite (log_prob_Categorical self _ Hc).
    rewrite (Categorical_log_prob_indices self raw idx Hd Hlen).
    rewrite gather_rows_out_of_range by assumption. eexists; reflexivity.
Qed.

Lemma Categorical_log_prob_indices_spec_witness :
  raises (log_prob uniform3_head (LongTensor (T1 [5%nat])) None).
Proof.
  apply (Categorical_log_prob_indices_spec uniform3_head
           (Categorical.mk (T2 (map Categorical.normalise [[0; 0; 0]])))
           [[0; 0; 0]] [5%nat] eq_refl eq_refl eq_refl eq_refl).
  intros H. inversion H as [|? ? ? ? Hlt]. simpl in Hlt. lia.
Defined.

Lemma sample_Categorical (self : instance) (g : rng) :
  class_of self = CategoricalDistribution_cls ->
  sample self g = as_long (CategoricalDistribution_sample self g).
Proof. intros Hc. unfold sample. now rewrite Hc. Qed.

Lemma draws_in_range (draw : nat -> list R -> nat) (raw : list (list R))
  (k : nat) :
  (forall i p, p <> [] -> (draw i p < length p)%nat) ->
  Forall (fun r => r <> []) raw ->
  Forall2 (fun i r => (i < length r)%nat)
    (map2 draw (seq k (length raw))
          (map Categorical.softmax (map Categorical.normalise raw)))
    raw.
Proof.
  intros Hdraw H; revert k.
  induction H as [|r raw Hr _ IH]; intros k; simpl; constructor; [|apply IH].
  rewrite <- (normalise_length r), <- (softmax_length (Categorical.normalise r)).
  apply Hdraw. destruct r; [congruence|discriminate].
Qed.

(** X14: [log_prob_from_params] of the categorical head on a batch of non-empty
    rows of logits, given draws that fall inside their rows: it returns the
    drawn index of each row with its log-probability, the logit at the
    index minus the log-sum-exp of the row, which is never positive. *)
Theorem Categorical_log_prob_from_params_spec :
  forall (self0 : instance) (raw : list (list R)) (g : rng),
    class_of self0 = CategoricalDistribution_cls ->
    Forall (fun r => r <> []) raw ->
    (forall i p, p <> [] -> (multinomial g i p < length p)%nat) ->
    let draws :=
      map2 (multinomial g) (seq 0 (length raw))
           (map Categorical.softmax (map Categorical.normalise raw)) in
    CategoricalDistribution_log_prob_from_params self0 (T2 raw) g
    = Ok (LongTensor (T1 draws),
          T1 (map2 (fun i r => log_pmf r i) draws raw),
          set_distribution self0
            (TCategorical
               (Categorical.mk (T2 (map Categorical.normalise raw)))))
    /\ length draws = length raw
    /\ Forall (fun l => l <= 0) (map2 (fun i r => log_pmf r i) draws raw).
Proof.
  intros self0 raw g Hc Hne Hdraw draws.
  pose proof (draws_in_range (multinomial g) raw 0 Hdraw Hne) as Hin.
  fold draws in Hin.
  assert (Hlen : length draws = length raw)
    by (apply (Forall2_length Hin)).
  split; [|split; [exact Hlen|]].
  - unfold CategoricalDistribution_log_prob_from_params, proba_distribution.
    rewrite Hc. cbn [resolve mro mro_fuel base find defines].
    unfold CategoricalDistribution_proba_distribution.
    cbn [Categorical.init bind].
    set (c := Categorical.mk (T2 (map Categorical.normalise raw))).
    set (self1 := set_distribution self0 (TCategorical c)).
    assert (Hc1 : class_of self1 = CategoricalDistribution_cls) by exact Hc.
    rewrite (sample_Categorical self1 g Hc1).
    unfold CategoricalDistribution_sample.
    rewrite (categorical_of_parameterized self1 c eq_refl). cbn [bind].
    unfold Categorical.sample, Categorical.probs. cbn [c Categorical.logits].
    rewrite !length_map. fold draws. cbn [bind as_long].
    rewrite (log_prob_Categorical self1 _ Hc1).
    rewrite (Categorical_log_prob_indices self1 raw draws eq_refl Hlen).
    now rewrite gather_rows_in_range.
  - clear - Hin. induction Hin; simpl; constructor; auto.
    now apply log_pmf_nonpos.
Qed.

Lemma Categorical_log_prob_from_params_spec_witness :
  length (map2 (multinomial zero_draws) (seq 0 (length [[0; 0; 0]]))
               (map Categorical.softmax
                    (map Categorical.normalise [[0; 0; 0]])))
  = length [[0; 0; 0]].
Proof.
  apply (Categorical_log_prob_from_params_spec
           (CategoricalDistribution_init 3) [[0; 0; 0]] zero_draws).
  - reflexivity.
  - repeat constructor. discriminate.
  - intros i p Hp. destruct p; [congruence|simpl; lia].
Defined.

Lemma Rsum_products_nonpos (u v : list R) :
  Forall (fun x => x <= 0) u -> Forall (fun y => 0 <= y) v ->
  Rsum (map2 Rmult u v) <= 0.
Proof.
  intros Hu; revert v; induction Hu as [|x u Hx _ IH]; intros v Hv;
    simpl; [lra|].
  destruct v as [|y v]; simpl; [lra|].
  inversion_clear Hv as [|? ? Hy Hv']. pose proof (IH v Hv'). nra.
Qed.

Lemma normalise_nonpos (r : list R) :
  Forall (fun x => x <= 0) (Categorical.normalise r).
Proof.
  apply Forall_forall. intros x Hx.
  destruct (In_nth _ _ 0 Hx) as [i [Hi E]]. rewrite normalise_length in Hi.
  rewrite nth_normalise in E by exact Hi. subst x. now apply log_pmf_nonpos.
Qed.

Lemma softmax_nonneg (r : list R) :
  r <> [] -> Forall (fun p => 0 <= p) (Categorical.softmax r).
Proof.
  intros Hr. pose proof (Rsum_exp_pos r Hr) as Hs.
  unfold Categorical.softmax. apply Forall_forall. intros p Hp.
  apply in_map_iff in Hp. destruct Hp as [x [<- _]].
  apply Rlt_le, Rdiv_lt_0_compat; [apply exp_pos|exact Hs].
Qed.

(** X15: the entropy of the categorical head is never negative. *)
Theorem Categorical_entropy_nonneg :
  forall (self : instance) (c : Categorical.t) (raw : list (list R)),
    class_of self = CategoricalDistribution_cls ->
    distribution self = Some (TCategorical c) ->
    Categorical.init (T2 raw) = Ok c ->
    exists hs,
      entropy self = Ok (T1 hs)
      /\ length hs = length raw
      /\ Forall (fun h => 0 <= h) hs.
Proof.
  intros self c raw Hc Hd Hi. simpl in Hi. inversion Hi as [Ec].
  exists (map row_entropy raw). split; [|split].
  - unfold entropy. rewrite Hc; cbn. unfold CategoricalDistribution_entropy.
    rewrite (categorical_of_parameterized _ _ Hd); cbn [bind]. subst c.
    apply Categorical_entropy_rows.
  - now rewrite length_map.
  - apply Forall_forall. intros h Hh. apply in_map_iff in Hh.
    destruct Hh as [r [<- _]]. unfold row_entropy.
    destruct r as [|x r].
    + simpl. lra.
    + assert (H : Rsum (map2 Rmult (Categorical.normalise (x :: r))
                          (Categorical.softmax
                             (Categorical.normalise (x :: r)))) <= 0).
      { apply Rsum_products_nonpos; [apply normalise_nonpos|].
        apply softmax_nonneg. discriminate. }
      lra.
Qed.

Lemma Categorical_entropy_nonneg_witness :
  exists hs,
    entropy uniform3_head = Ok (T1 hs)
    /\ length hs = length [[0; 0; 0]]
    /\ Forall (fun h => 0 <= h) hs.
Proof.
  apply (Categorical_entropy_nonneg uniform3_head
           (Categorical.mk (T2 (map Categorical.normalise [[0; 0; 0]])))
           [[0; 0; 0]] eq_refl eq_refl eq_refl).
Defined.

(** ** proba_distribution_net *)

Lemma ones_times_init (v : R) (d : nat) :
  map (fun one => one * v) (repeat 1 d) = repeat v d.
Proof.
  induction d as [|d IH]; simpl; auto. now rewrite IH, Rmult_1_l.
Qed.

(** X16: the parameters [proba_distribution_net] of a Gaussian head creates fit
    the head: the layer has one weight row of [latent_dim] entries and one
    bias per action dimension, [log_std] is [log_std_init] (0 by default) in
    every action dimension, and [proba_distribution] accepts this [log_std]
    with any batch of means of width [action_dim], the standard deviation
    being [exp(log_std_init)] throughout. *)
Theorem proba_distribution_net_fits :
  forall (self0 : instance) (w0 : nat -> nat -> R) (b0 : nat -> R)
         (latent_dim : nat) (log_std_init : option R)
         (rows : list (list R)) (deterministic : bool) (g : rng),
    class_of self0 = DiagGaussianDistribution_cls
    \/ class_of self0 = SquashedDiagGaussianDistribution_cls ->
    Forall (fun r => length r = action_dim self0) rows ->
    let net :=
      DiagGaussianDistribution_proba_distribution_net self0 w0 b0 latent_dim
        log_std_init in
    let v := match log_std_init with Some x => x | None => 0 end in
    snd net = T1 (repeat v (action_dim self0))
    /\ length (weight (fst net)) = action_dim self0
    /\ Forall (fun w => length w = latent_dim) (weight (fst net))
    /\ length (bias (fst net)) = action_dim self0
    /\ exists act self,
        DiagGaussianDistribution_proba_distribution self0 (T2 rows) (snd net)
          deterministic g = Ok (act, self)
        /\ distribution self =
             Some (TNormal
                     (Normal.mk (T2 rows)
                        (T2 (map (fun _ => repeat (exp v) (action_dim self0))
                                 rows)))).
Proof.
  intros self0 w0 b0 latent_dim log_std_init rows det g Hc Hrows net v.
  assert (Hstd : snd net = T1 (repeat v (action_dim self0))).
  { unfold net, DiagGaussianDistribution_proba_distribution_net.
    cbn [snd tmap]. fold v. now rewrite ones_times_init. }
  split; [exact Hstd|]. split; [|split; [|split]].
  - unfold net, DiagGaussianDistribution_proba_distribution_net, nn_Linear.
    cbn [fst weight]. now rewrite length_map, length_seq.
  - unfold net, DiagGaussianDistribution_proba_distribution_net, nn_Linear.
    cbn [fst weight]. apply Forall_forall. intros w Hw.
    apply in_map_iff in Hw. destruct Hw as [o [<- _]].
    now rewrite length_map, length_seq.
  - unfold net, DiagGaussianDistribution_proba_distribution_net, nn_Linear.
    cbn [fst bias]. now rewrite length_map, length_seq.
  - rewrite Hstd.
    assert (Hm : mean_matches (T2 rows) (repeat v (action_dim self0))).
    { simpl. eapply Forall_impl; [|exact Hrows].
      intros r Hr. now rewrite repeat_length. }
    destruct (proba_distribution_parameterizes self0 (T2 rows)
                (repeat v (action_dim self0)) det g Hc Hm)
      as [act [self [Hpd [_ [_ [Hd _]]]]]].
    exists act, self. split; [exact Hpd|].
    rewrite Hd. unfold action_std. now rewrite map_repeat.
Qed.

Lemma proba_distribution_net_fits_witness :
  snd (DiagGaussianDistribution_proba_distribution_net
         (DiagGaussianDistribution_init 2) (fun _ _ => 0) (fun _ => 0) 3 None)
  = T1 (repeat 0 2).
Proof.
  apply (proba_distribution_net_fits (DiagGaussianDistribution_init 2)
           (fun _ _ => 0) (fun _ => 0) 3 None [[1; 2]] true zero_draws).
  - left. reflexivity.
  - repeat constructor.
Defined.

(** ** A single action against a batch of parameters *)

Lemma bmat_row_l {A B C : Type} (f : A -> B -> C) (v : list A)
  (m : list (list B)) :
  Forall (fun r => length r = length v) m ->
  bmat f [v] m = Ok (map (fun r => map2 f v r) m).
Proof.
  intros H. unfold bmat.
  assert (E : mapM (bvec f v) m = Ok (map (fun r => map2 f v r) m)).
  { induction H as [|r m Hr _ IH]; simpl; auto.
    rewrite bvec_same by congruence. simpl. now rewrite IH. }
  destruct m as [|r [|r' m']]; simpl; auto.
Qed.

Lemma map2_repeated_row {A B C : Type} (f : A -> B -> C) (v : list A)
  (m : list (list B)) :
  map2 (map2 f) (map (fun _ => v) m) m = map (fun r => map2 f v r) m.
Proof. induction m as [|r m IH]; simpl; auto. now rewrite IH. Qed.

(** X17: on a head parameterized on a batch, a rank-1 action of the width of
    the parameters is taken as that action for every row of the batch:
    [log_prob] returns one scalar per row of the parameters, the
    log-density of the action under the parameters of that row, the same as
    for the batch that repeats the action. *)
Theorem DiagGaussian_log_prob_rank1_broadcasts :
  forall (self : instance) (n : Normal.t) (mus sigmas : list (list R))
         (v : list R),
    gaussian_parameterized self n ->
    Normal.loc n = T2 mus -> Normal.scale n = T2 sigmas ->
    Forall (fun mu => length mu = length v) mus ->
    DiagGaussianDistribution_log_prob self (T1 v)
    = Ok (T1 (map3 row_log_density mus sigmas (map (fun _ => v) mus)))
    /\ DiagGaussianDistribution_log_prob self (T1 v)
       = DiagGaussianDistribution_log_prob self (T2 (map (fun _ => v) mus))
    /\ length (map3 row_log_density mus sigmas (map (fun _ => v) mus))
       = length mus.
Proof.
  intros self n mus sigmas v [Hd Hl] Hmu Hsg Hv.
  rewrite Hmu, Hsg in Hl; simpl in Hl.
  assert (Hrep : same_rows (map (fun _ => v) mus) mus).
  { clear - Hv. induction Hv; simpl; constructor; auto. }
  assert (Hbatch : DiagGaussianDistribution_log_prob self
                     (T2 (map (fun _ => v) mus))
                   = Ok (T1 (map3 row_log_density mus sigmas
                               (map (fun _ => v) mus))))
    by now apply DiagGaussian_log_prob_T2 with (n := n).
  assert (Hsame : Normal.log_prob n (T1 v) =
                  Normal.log_prob n (T2 (map (fun _ => v) mus))).
  { unfold Normal.log_prob, tsub. rewrite Hmu.
    rewrite broadcast_T2 by exact Hrep. cbn [broadcast].
    rewrite bmat_row_l by exact Hv. now rewrite map2_repeated_row. }
  assert (Heq : DiagGaussianDistribution_log_prob self (T1 v) =
                DiagGaussianDistribution_log_prob self
                  (T2 (map (fun _ => v) mus))).
  { unfold DiagGaussianDistribution_log_prob.
    rewrite (normal_of_parameterized _ _ Hd); cbn [bind]. now rewrite Hsame. }
  split; [now rewrite Heq|]. split; [exact Heq|].
  rewrite map3_rows_length by assumption. now rewrite length_map.
Qed.

Lemma DiagGaussian_log_prob_rank1_broadcasts_witness :
  DiagGaussianDistribution_log_prob
    (unit_head DiagGaussianDistribution_cls (T2 [[0]; [1]]) (T2 [[1]; [1]]))
    (T1 [5])
  = Ok (T1 (map3 row_log_density [[0]; [1]] [[1]; [1]]
              (map (fun _ => [5]) [[0]; [1]]))).
Proof.
  apply (DiagGaussian_log_prob_rank1_broadcasts
           (unit_head DiagGaussianDistribution_cls (T2 [[0]; [1]]) (T2 [[1]; [1]]))
           (Normal.mk (T2 [[0]; [1]]) (T2 [[1]; [1]]))
           [[0]; [1]] [[1]; [1]] [5]).
  - split; [reflexivity|]. simpl. repeat constructor.
  - reflexivity.
  - reflexivity.
  - repeat constructor.
Defined.
